(** * BH Smart Sym: the modal symmetrize gizmo of [__init__.py]

    A shallow embedding of the arrow geometry ([make_solid_arrow]), of the
    arrow refresh ([update_arrows]) and of the modal operator
    ([invoke], [modal], [finish], [draw_callback]) of
    [MESH_OT_smart_symmetrize_modal].

    Numbers.  Python floats and the components of [mathutils.Vector] are
    idealised as real numbers: rounding is outside the model.  The integer
    pointer coordinates of an event are [Z], injected with [IZR].

    Host.  The host application is an external collaborator.  What the code
    asks of it is recorded in a log of host calls, and what it answers
    (projections, the view rotation, whether the mirror operator raises)
    is data carried by the context of each call.

    Exceptions.  A handler either returns or raises; what it did before it
    raised stays done.  Three places can raise: the index into
    [self._arrows] (line 257), the mirror operator (line 259), and the
    attribute reads [context.area.type] (line 276, no area) and
    [context.space_data.region_3d] (lines 200 and 243, a space that is not a
    3D view). *)

From Stdlib Require Import Reals Lra List String ZArith Lia Bool.
Import ListNotations.
Open Scope R_scope.

(** ** [mathutils.Vector], three components *)

Module Vector.

Record t : Type := mk { x : R; y : R; z : R }.

Definition add (a b : t) : t := mk (x a + x b) (y a + y b) (z a + z b).
Definition sub (a b : t) : t := mk (x a - x b) (y a - y b) (z a - z b).
(** [v * k] *)
Definition scale (v : t) (k : R) : t := mk (x v * k) (y v * k) (z v * k).
Definition dot (a b : t) : R := x a * x b + y a * y b + z a * z b.
Definition cross (a b : t) : t :=
  mk (y a * z b - z a * y b) (z a * x b - x a * z b) (x a * y b - y a * x b).
Definition length (v : t) : R := sqrt (dot v v).

(** [v.normalized()] / [v.normalize()]: a vector whose length is zero is left
    as it is (mathutils: "normalizing a vector where all values are zero has
    no effect"). *)
Definition normalized (v : t) : t :=
  if Req_dec_T (length v) 0 then v else scale v (/ length v).

Definition zero : t := mk 0 0 0.

End Vector.

(** [mathutils.Vector] with two components: a point of the screen region. *)
Module Vector2.
Record t : Type := mk { x : R; y : R }.
Definition add (a b : t) : t := mk (x a + x b) (y a + y b).
End Vector2.

Declare Scope vec_scope.
Delimit Scope vec_scope with vec.
Bind Scope vec_scope with Vector.t.
Infix "+" := Vector.add : vec_scope.
Infix "-" := Vector.sub : vec_scope.
Infix "*" := Vector.scale : vec_scope.

(** ** Geometry: [make_solid_arrow] *)

(** Lines 160-162: the reference the side vector is taken from, before
    [side.normalize()]. *)
Definition side_reference (dir_n : Vector.t) : Vector.t :=
  let side := Vector.cross dir_n (Vector.mk 0 1 0) in
  if Rlt_dec (Vector.length side) 1e-6 then Vector.mk 1 0 0 else side.

(** Lines 160-163. *)
Definition side_vector (dir_n : Vector.t) : Vector.t :=
  Vector.normalized (side_reference dir_n).

(** Line 164; the vector handed to [normalized] is [side2_reference]. *)
Definition side2_reference (dir_n : Vector.t) : Vector.t :=
  Vector.cross dir_n (side_vector dir_n).

Definition side2_vector (dir_n : Vector.t) : Vector.t :=
  Vector.normalized (side2_reference dir_n).

Definition make_solid_arrow (base direction : Vector.t) (length : R)
  : list Vector.t * Vector.t :=
  let dir_n := Vector.normalized direction in
  let tip := (base + dir_n * length)%vec in
  let shaft_mid := (base + dir_n * (length * 0.75))%vec in
  let side := side_vector dir_n in
  let side2 := side2_vector dir_n in
  let head_w := length * 0.12 in
  let points :=
    [ base;
      shaft_mid;
      tip;
      (shaft_mid + side * head_w)%vec;
      tip;
      (shaft_mid - side * head_w)%vec;
      tip;
      (shaft_mid + side2 * head_w)%vec;
      tip;
      (shaft_mid - side2 * head_w)%vec ] in
  (points, tip).

(** ** The host application *)

(** [obj.matrix_world]: the translation and the rows of its 3x3 part. *)
Module Matrix.
Record t : Type := mk { translation : Vector.t; row0 : Vector.t; row1 : Vector.t; row2 : Vector.t }.
(** [m.to_3x3() @ v] *)
Definition to_3x3_mul (m : t) (v : Vector.t) : Vector.t :=
  Vector.mk (Vector.dot (row0 m) v) (Vector.dot (row1 m) v) (Vector.dot (row2 m) v).
End Matrix.

Module Object.
Record t : Type := mk { type : string; matrix_world : Matrix.t }.
End Object.

Module Area.
Record t : Type := mk { type : string }.
End Area.

(** [context.region] together with [context.space_data.region_3d]: the view
    rotation acting on a vector ([rv3d.view_rotation @ v]) and the two
    projections of [bpy_extras.view3d_utils] at this region and view. *)
Module View.
Record t : Type := mk {
  view_rotation : Vector.t -> Vector.t;
  location_3d_to_region_2d : Vector.t -> option Vector2.t;
  region_2d_to_location_3d : Vector2.t -> Vector.t -> Vector.t }.
End View.

Module Context.
Record t : Type := mk {
  object : option Object.t;
  mode : string;
  area : option Area.t;
  (** [context.region] and [context.space_data.region_3d]; [None] when the
      space has no [region_3d] (it is not a 3D view), so that reading the
      attribute raises *)
  view : option View.t;
  (** [preferences.arrow_size] *)
  arrow_size : R;
  (** whether [bpy.ops.mesh.symmetrize(direction, threshold)] raises *)
  symmetrize_raises : string -> R -> bool }.
End Context.

Module Event.
Record t : Type := mk {
  type : string;
  value : string;
  alt : bool;
  mouse_region_x : Z;
  mouse_region_y : Z }.
End Event.

Definition Color : Type := (R * R * R * R)%type.

(** What the operator asks of the host, in the order it asks. *)
Inductive HostCall : Type :=
| TagRedraw
| Report (level message : string)
| ShaderFromBuiltin (name : string)
| EventTimerAdd (interval : R) (timer : nat)
| EventTimerRemove (timer : nat)
| DrawHandlerAdd (handle : nat)
| DrawHandlerRemove (handle : nat)
| ModalHandlerAdd
| Symmetrize (direction : string) (threshold : R)
| BlendSet (state : string)
| BatchDraw (col : Color) (pos : list Vector.t).

(** One entry of [self._arrows]. *)
Record Arrow : Type := mkArrow {
  axis : string;
  sign : Z;
  points : list Vector.t;
  tip : Vector.t;
  color : Color }.

(** The attributes of the operator. *)
Record Operator : Type := mkOperator {
  _handle : option nat;
  _timer : option nat;
  _arrows : list Arrow;
  _hover : option nat }.

Record World : Type := mkWorld {
  self : Operator;
  calls : list HostCall }.

Inductive Exn : Type := IndexError | RuntimeError | AttributeError.

Inductive Res (A : Type) : Type :=
| Done (a : A)
| Raised (e : Exn).
Arguments Done {A} a.
Arguments Raised {A} e.

(** State and exceptions: what was done before a [raise] stays done. *)
Definition M (A : Type) : Type := World -> Res A * World.

Definition ret {A} (a : A) : M A := fun w => (Done a, w).
Definition bind {A B} (c : M A) (k : A -> M B) : M B :=
  fun w => match c w with
           | (Done a, w') => k a w'
           | (Raised e, w') => (Raised e, w')
           end.
Definition raise {A} (e : Exn) : M A := fun w => (Raised e, w).

Declare Scope m_scope.
Delimit Scope m_scope with m.
Notation "x <- c ;; k" := (bind c (fun x => k))
  (at level 61, c at next level, right associativity) : m_scope.
Notation "c ;; k" := (bind c (fun _ => k))
  (at level 61, right associativity) : m_scope.
Open Scope m_scope.

Definition host (c : HostCall) : M unit :=
  fun w => (Done tt, mkWorld (self w) (calls w ++ [c])).
Definition get_self : M Operator := fun w => (Done (self w), w).
Definition set_self (o : Operator) : M unit := fun w => (Done tt, mkWorld o (calls w)).
Definition modify_self (f : Operator -> Operator) : M unit :=
  o <- get_self ;; set_self (f o).

Definition set_handle (h : option nat) : M unit :=
  modify_self (fun o => mkOperator h (_timer o) (_arrows o) (_hover o)).
Definition set_timer (t : option nat) : M unit :=
  modify_self (fun o => mkOperator (_handle o) t (_arrows o) (_hover o)).
Definition set_arrows (l : list Arrow) : M unit :=
  modify_self (fun o => mkOperator (_handle o) (_timer o) l (_hover o)).
Definition set_hover (i : option nat) : M unit :=
  modify_self (fun o => mkOperator (_handle o) (_timer o) (_arrows o) i).

(** The host hands out a timer or a handle that no earlier call named. *)
Definition new_id : M nat := fun w => (Done (List.length (calls w)), w).

Definition event_timer_add (interval : R) : M nat :=
  t <- new_id ;; host (EventTimerAdd interval t) ;; ret t.
Definition draw_handler_add : M nat :=
  h <- new_id ;; host (DrawHandlerAdd h) ;; ret h.

Fixpoint for_each {A} (l : list A) (body : A -> M unit) : M unit :=
  match l with
  | [] => ret tt
  | a :: l' => body a ;; for_each l' body
  end.

Definition when (b : bool) (c : M unit) : M unit := if b then c else ret tt.

(** ** The operator [MESH_OT_smart_symmetrize_modal] *)

Inductive Status : Type := RUNNING_MODAL | PASS_THROUGH | CANCELLED | FINISHED.

(** [colors[axis_name]], the dictionary of line 210. *)
Definition colors (axis_name : string) : Color :=
  if (axis_name =? "X")%string then (1, 0.1, 0.1, 1)
  else if (axis_name =? "Y")%string then (0.1, 1, 0.1, 1)
  else (0.1, 0.5, 1, 1).

Definition dark_mul : R := 0.45.

(** Line 214. *)
Definition arrow_color (axis_name : string) (sign : Z) : Color :=
  if (sign >? 0)%Z then colors axis_name
  else let '(r, g, b, _) := colors axis_name in
       (r * dark_mul, g * dark_mul, b * dark_mul, 1).

(** Lines 215-219: the direction of an axis, tilted off the view ray when it
    is nearly parallel to it. *)
Definition tilt_direction (view_dir dir_ws : Vector.t) : Vector.t :=
  let dot_val := Rabs (Vector.dot (Vector.normalized dir_ws) view_dir) in
  if Rlt_dec 0.96 dot_val then
    let tilt := (Vector.normalized (Vector.cross view_dir dir_ws) * 0.1)%vec in
    Vector.normalized (dir_ws + tilt)
  else dir_ws.

(** [self._arrows.append(a)] *)
Definition append_arrow (a : Arrow) : M unit :=
  o <- get_self ;; set_arrows (_arrows o ++ [a]).

Definition update_arrows (context : Context.t) : M unit :=
  match Context.object context with
  | None => ret tt
  | Some obj =>
      let arrow_px := Context.arrow_size context in
      match Context.view context with
      | None => raise AttributeError
      | Some rv3d =>
          let origin := Matrix.translation (Object.matrix_world obj) in
          set_arrows [] ;;
          let view_dir :=
            Vector.normalized (View.view_rotation rv3d (Vector.mk 0 0 (-1))) in
          let axes :=
            [ ("X"%string, Matrix.to_3x3_mul (Object.matrix_world obj) (Vector.mk 1 0 0));
              ("Y"%string, Matrix.to_3x3_mul (Object.matrix_world obj) (Vector.mk 0 1 0));
              ("Z"%string, Matrix.to_3x3_mul (Object.matrix_world obj) (Vector.mk 0 0 1)) ] in
          for_each axes (fun '(axis_name, vec) =>
            for_each [1%Z; (-1)%Z] (fun sign =>
              let color := arrow_color axis_name sign in
              let dir_ws := tilt_direction view_dir (vec * IZR sign)%vec in
              match View.location_3d_to_region_2d rv3d origin with
              | None => ret tt
              | Some p_origin_2d =>
                  let offset_2d := Vector2.add p_origin_2d (Vector2.mk arrow_px 0) in
                  let p_tip_ws := View.region_2d_to_location_3d rv3d offset_2d origin in
                  let length := Vector.length (p_tip_ws - origin) in
                  let '(points, tip) := make_solid_arrow origin dir_ws length in
                  append_arrow (mkArrow axis_name sign points tip color)
              end))
      end
  end.

(** The test of line 248 on one arrow: its tip projects, within [tol] pixels
    of the pointer. *)
Definition tip_hit (rv3d : View.t) (mx my : Z) (a : Arrow) : bool :=
  let tol := 20 in
  match View.location_3d_to_region_2d rv3d (tip a) with
  | Some tip_2d =>
      if Rle_dec ((IZR mx - Vector2.x tip_2d) ^ 2 + (IZR my - Vector2.y tip_2d) ^ 2) (tol ^ 2)
      then true else false
  | None => false
  end.

(** Lines 246-250: the index of the first arrow that is hit, counting from [i]. *)
Fixpoint hit_scan (rv3d : View.t) (mx my : Z) (i : nat) (arrows : list Arrow) : option nat :=
  match arrows with
  | [] => None
  | a :: rest => if tip_hit rv3d mx my a then Some i else hit_scan rv3d mx my (S i) rest
  end.

Definition in_strings (s : string) (l : list string) : bool :=
  existsb (String.eqb s) l.

Definition finish (context : Context.t) : M unit :=
  o <- get_self ;;
  match _timer o with Some t => host (EventTimerRemove t) | None => ret tt end ;;
  match _handle o with Some h => host (DrawHandlerRemove h) | None => ret tt end ;;
  match Context.area context with Some _ => host TagRedraw | None => ret tt end.

(** Line 258. *)
Definition direction_token (a : Arrow) : string :=
  ((if (sign a >? 0)%Z then "POSITIVE" else "NEGATIVE") ++ "_" ++ axis a)%string.

(** [bpy.ops.mesh.symmetrize(direction=..., threshold=...)] *)
Definition bpy_ops_mesh_symmetrize (context : Context.t) (direction : string) (threshold : R) : M unit :=
  host (Symmetrize direction threshold) ;;
  if Context.symmetrize_raises context direction threshold then raise RuntimeError else ret tt.

Definition modal (context : Context.t) (event : Event.t) : M Status :=
  match Context.area context with Some _ => host TagRedraw | None => ret tt end ;;
  when (Event.type event =? "TIMER")%string (update_arrows context) ;;
  if in_strings (Event.type event)
       ["MIDDLEMOUSE"; "WHEELUPMOUSE"; "WHEELDOWNMOUSE"; "WHEELINMOUSE"; "WHEELOUTMOUSE"]%string
     || ((Event.type event =? "MOUSEMOVE")%string && Event.alt event)
  then ret PASS_THROUGH
  else
    when (Event.type event =? "MOUSEMOVE")%string
      (let mx := Event.mouse_region_x event in
       let my := Event.mouse_region_y event in
       match Context.view context with
       | None => raise AttributeError
       | Some rv3d =>
           set_hover None ;;
           o <- get_self ;;
           match hit_scan rv3d mx my 0 (_arrows o) with
           | Some i => set_hover (Some i)
           | None => ret tt
           end
       end) ;;
    if in_strings (Event.type event) ["RIGHTMOUSE"; "ESC"]%string
    then finish context ;; ret CANCELLED
    else
      o <- get_self ;;
      if ((Event.type event =? "LEFTMOUSE") && (Event.value event =? "PRESS"))%string
      then
        match _hover o with
        | Some hover =>
            match nth_error (_arrows o) hover with
            | None => raise IndexError
            | Some a =>
                let direction := direction_token a in
                bpy_ops_mesh_symmetrize context direction 0.0001 ;;
                finish context ;;
                ret FINISHED
            end
        | None => ret RUNNING_MODAL
        end
      else ret RUNNING_MODAL.

Definition invoke (context : Context.t) (event : Event.t) : M Status :=
  match Context.object context with
  | None => host (Report "WARNING" "Edit Mode mesh required") ;; ret CANCELLED
  | Some obj =>
      if negb (Object.type obj =? "MESH")%string || negb (Context.mode context =? "EDIT_MESH")%string
      then host (Report "WARNING" "Edit Mode mesh required") ;; ret CANCELLED
      else
        host (ShaderFromBuiltin "UNIFORM_COLOR") ;;
        update_arrows context ;;
        t <- event_timer_add 0.25 ;;
        set_timer (Some t) ;;
        match Context.area context with
        | None => raise AttributeError
        | Some a =>
            if (Area.type a =? "VIEW_3D")%string
            then
              h <- draw_handler_add ;;
              set_handle (Some h) ;;
              host ModalHandlerAdd ;;
              ret RUNNING_MODAL
            else
              host (Report "WARNING" "View3D area required") ;;
              ret CANCELLED
        end
  end.

(** Lines 295-300: one draw per arrow, the hovered one in yellow. *)
Fixpoint draw_arrows (hover : option nat) (i : nat) (arrows : list Arrow) : list HostCall :=
  match arrows with
  | [] => []
  | a :: rest =>
      let col := match hover with
                 | Some h => if Nat.eqb i h then (1, 1, 0, 1) else color a
                 | None => color a
                 end in
      BatchDraw col (points a) :: draw_arrows hover (S i) rest
  end.

Definition draw_commands (o : Operator) : list HostCall :=
  BlendSet "ALPHA" :: draw_arrows (_hover o) 0 (_arrows o) ++ [BlendSet "NONE"].

Definition draw_callback (context : Context.t) : M unit :=
  o <- get_self ;; for_each (draw_commands o) host.

(** ** Sessions *)

(** The host calls [modal] once per event for as long as it answers
    [RUNNING_MODAL] or [PASS_THROUGH]; any other answer, or an exception,
    ends the session. *)
Fixpoint run (events : list (Context.t * Event.t)) : M Status :=
  match events with
  | [] => ret RUNNING_MODAL
  | (context, event) :: rest =>
      st <- modal context event ;;
      match st with
      | RUNNING_MODAL | PASS_THROUGH => run rest
      | CANCELLED | FINISHED => ret st
      end
  end.

(** A whole gesture: [invoke], then the events while the session is active. *)
Definition session (context : Context.t) (event : Event.t)
  (events : list (Context.t * Event.t)) : M Status :=
  st <- invoke context event ;;
  match st with
  | RUNNING_MODAL => run events
  | _ => ret st
  end.

(** ** What a refresh leaves in [self._arrows] *)

(** The six directions, in the order the two loops of [update_arrows] visit
    them. *)
Definition six_directions : list (string * Z) :=
  [ ("X"%string, 1%Z); ("X"%string, (-1)%Z);
    ("Y"%string, 1%Z); ("Y"%string, (-1)%Z);
    ("Z"%string, 1%Z); ("Z"%string, (-1)%Z) ].

Definition arrow_tag (a : Arrow) : string * Z := (axis a, sign a).

(** The axis of the object the name stands for (the dictionary of line 205). *)
Definition axis_vector (obj : Object.t) (axis_name : string) : Vector.t :=
  Matrix.to_3x3_mul (Object.matrix_world obj)
    (if (axis_name =? "X")%string then Vector.mk 1 0 0
     else if (axis_name =? "Y")%string then Vector.mk 0 1 0
     else Vector.mk 0 0 1).

(** The body of the loops (lines 214-227) once the origin has projected to
    [p_origin_2d]. *)
Definition built_arrow (rv3d : View.t) (arrow_px : R) (obj : Object.t)
  (p_origin_2d : Vector2.t) (tag : string * Z) : Arrow :=
  let '(axis_name, sign) := tag in
  let origin := Matrix.translation (Object.matrix_world obj) in
  let view_dir := Vector.normalized (View.view_rotation rv3d (Vector.mk 0 0 (-1))) in
  let dir_ws := tilt_direction view_dir (axis_vector obj axis_name * IZR sign)%vec in
  let offset_2d := Vector2.add p_origin_2d (Vector2.mk arrow_px 0) in
  let p_tip_ws := View.region_2d_to_location_3d rv3d offset_2d origin in
  let length := Vector.length (p_tip_ws - origin) in
  mkArrow axis_name sign (fst (make_solid_arrow origin dir_ws length))
    (snd (make_solid_arrow origin dir_ws length)) (arrow_color axis_name sign).

(** The list a refresh builds for an object. *)
Definition refreshed_arrows (rv3d : View.t) (arrow_px : R) (obj : Object.t) : list Arrow :=
  match View.location_3d_to_region_2d rv3d (Matrix.translation (Object.matrix_world obj)) with
  | None => []
  | Some p_origin_2d => map (built_arrow rv3d arrow_px obj p_origin_2d) six_directions
  end.

(** ** The handler, read as a function on worlds *)

Definition with_arrows (o : Operator) (l : list Arrow) : Operator :=
  mkOperator (_handle o) (_timer o) l (_hover o).

Definition with_hover (o : Operator) (i : option nat) : Operator :=
  mkOperator (_handle o) (_timer o) (_arrows o) i.

(** The world after some more host calls. *)
Definition logged (w : World) (l : list HostCall) : World :=
  mkWorld (self w) (calls w ++ l).

(** [if context.area: context.area.tag_redraw()] *)
Definition redraw_calls (context : Context.t) : list HostCall :=
  match Context.area context with Some _ => [TagRedraw] | None => [] end.

(** What [finish] hands back to the host. *)
Definition release_calls (o : Operator) : list HostCall :=
  match _timer o with Some t => [EventTimerRemove t] | None => [] end ++
  match _handle o with Some h => [DrawHandlerRemove h] | None => [] end.

(** [update_arrows] raises: there is an object, and no [region_3d] to read
    at line 200. *)
Definition refresh_raises (context : Context.t) : bool :=
  match Context.object context, Context.view context with
  | Some _, None => true
  | _, _ => false
  end.

(** [self._arrows] after an [update_arrows] that returned. *)
Definition arrows_after (context : Context.t) (o : Operator) : list Arrow :=
  match Context.object context, Context.view context with
  | Some obj, Some rv3d => refreshed_arrows rv3d (Context.arrow_size context) obj
  | _, _ => _arrows o
  end.

Definition refreshed (context : Context.t) (w : World) : World :=
  mkWorld (with_arrows (self w) (arrows_after context (self w))) (calls w).

(** The test of lines 235-238. *)
Definition pass_through (event : Event.t) : bool :=
  in_strings (Event.type event)
    ["MIDDLEMOUSE"; "WHEELUPMOUSE"; "WHEELDOWNMOUSE"; "WHEELINMOUSE"; "WHEELOUTMOUSE"]%string
  || ((Event.type event =? "MOUSEMOVE")%string && Event.alt event).

(** The world after lines 230-233. *)
Definition after_timer (context : Context.t) (event : Event.t) (w : World) : World :=
  let w1 := logged w (redraw_calls context) in
  if (Event.type event =? "TIMER")%string then refreshed context w1 else w1.

(** A timer tick whose refresh raises. *)
Definition timer_raises (context : Context.t) (event : Event.t) : bool :=
  (Event.type event =? "TIMER")%string && refresh_raises context.

(** A pointer move with no [region_3d] to read at line 243. *)
Definition move_raises (context : Context.t) (event : Event.t) : bool :=
  (Event.type event =? "MOUSEMOVE")%string
  && match Context.view context with Some _ => false | None => true end.

(** The world after lines 241-250. *)
Definition after_move (context : Context.t) (event : Event.t) (w : World) : World :=
  if (Event.type event =? "MOUSEMOVE")%string
  then match Context.view context with
       | Some rv3d =>
           mkWorld (with_hover (self w)
                      (hit_scan rv3d (Event.mouse_region_x event)
                         (Event.mouse_region_y event) 0 (_arrows (self w))))
                   (calls w)
       | None => w
       end
  else w.

Definition finished (context : Context.t) (w : World) : World :=
  logged w (release_calls (self w) ++ redraw_calls context).

Definition with_timer (o : Operator) (t : option nat) : Operator :=
  mkOperator (_handle o) t (_arrows o) (_hover o).

Definition with_handle (o : Operator) (h : option nat) : Operator :=
  mkOperator h (_timer o) (_arrows o) (_hover o).

(** The world after lines 271-274 of [invoke]: the shader, the first
    refresh, the timer. *)
Definition timer_started (context : Context.t) (w : World) : World :=
  let w1 := refreshed context (logged w [ShaderFromBuiltin "UNIFORM_COLOR"]) in
  let t := List.length (calls w1) in
  mkWorld (with_timer (self w1) (Some t)) (calls w1 ++ [EventTimerAdd 0.25 t]).

(** The world after lines 277-278. *)
Definition handler_added (w : World) : World :=
  let h := List.length (calls w) in
  mkWorld (with_handle (self w) (Some h)) (calls w ++ [DrawHandlerAdd h; ModalHandlerAdd]).

(** The test of line 267. *)
Definition entry_refused (context : Context.t) : bool :=
  match Context.object context with
  | None => true
  | Some obj =>
      negb (Object.type obj =? "MESH")%string || negb (Context.mode context =? "EDIT_MESH")%string
  end.

(** ** Reading the log of host calls *)

Definition is_timer_call (c : HostCall) : bool :=
  match c with EventTimerAdd _ _ | EventTimerRemove _ => true | _ => false end.

Definition is_handler_call (c : HostCall) : bool :=
  match c with DrawHandlerAdd _ | DrawHandlerRemove _ => true | _ => false end.

Definition is_symmetrize_call (c : HostCall) : bool :=
  match c with Symmetrize _ _ => true | _ => false end.

Definition is_release (c : HostCall) : bool :=
  match c with EventTimerRemove _ | DrawHandlerRemove _ => true | _ => false end.

Definition is_acquire (c : HostCall) : bool :=
  match c with EventTimerAdd _ _ | DrawHandlerAdd _ => true | _ => false end.

(** The worlds of an active session: after an [invoke] that answered
    [RUNNING_MODAL], and after every [modal] that kept the session going. *)
Inductive active : World -> Prop :=
| active_invoke context event w w' :
    invoke context event w = (Done RUNNING_MODAL, w') -> active w'
| active_running context event w w' :
    active w -> modal context event w = (Done RUNNING_MODAL, w') -> active w'
| active_pass context event w w' :
    active w -> modal context event w = (Done PASS_THROUGH, w') -> active w'.

(** An arrow's tip lies within [r] pixels of the pointer, as a distance. *)
Definition tip_within (rv3d : View.t) (mx my : Z) (r : R) (a : Arrow) : Prop :=
  exists tip_2d, View.location_3d_to_region_2d rv3d (tip a) = Some tip_2d /\
    sqrt ((IZR mx - Vector2.x tip_2d) ^ 2 + (IZR my - Vector2.y tip_2d) ^ 2) <= r.

(** [h] is the first arrow of [arrows] within 20 pixels, or none when there
    is none. *)
Definition first_within (rv3d : View.t) (mx my : Z) (arrows : list Arrow) (h : option nat) : Prop :=
  match h with
  | Some i =>
      (exists a, nth_error arrows i = Some a /\ tip_within rv3d mx my 20 a) /\
      (forall j b, (j < i)%nat -> nth_error arrows j = Some b -> ~ tip_within rv3d mx my 20 b)
  | None => forall b, In b arrows -> ~ tip_within rv3d mx my 20 b
  end.

(** ** A scene to run the operator on *)

(** An orthographic view from above, looking down -Z: one pixel per world
    unit, the world origin at pixel (400, 300). *)
Definition top_view : View.t :=
  View.mk (fun v => v)
    (fun v => Some (Vector2.mk (Vector.x v + 400) (Vector.y v + 300)))
    (fun p depth => Vector.mk (Vector2.x p - 400) (Vector2.y p - 300) (Vector.z depth)).

(** The same view after the camera moved so that nothing projects to the
    region ([location_3d_to_region_2d] answers [None]). *)
Definition away_view : View.t :=
  View.mk (fun v => v) (fun _ => None)
    (fun p depth => Vector.mk (Vector2.x p - 400) (Vector2.y p - 300) (Vector.z depth)).

(** A mesh object at the world origin, not rotated, not scaled. *)
Definition mesh_obj : Object.t :=
  Object.mk "MESH"
    (Matrix.mk (Vector.mk 0 0 0) (Vector.mk 1 0 0) (Vector.mk 0 1 0) (Vector.mk 0 0 1)).

Definition never_raises : string -> R -> bool := fun _ _ => false.
Definition always_raises : string -> R -> bool := fun _ _ => true.

(** The mesh of the scene in edit mode, the arrows 80 pixels long. *)
Definition scene (area_type : string) (rv3d : option View.t) (raises : string -> R -> bool)
  : Context.t :=
  Context.mk (Some mesh_obj) "EDIT_MESH" (Some (Area.mk area_type)) rv3d 80 raises.

Definition ctx_top : Context.t := scene "VIEW_3D" (Some top_view) never_raises.
Definition ctx_top_raising : Context.t := scene "VIEW_3D" (Some top_view) always_raises.
Definition ctx_away : Context.t := scene "VIEW_3D" (Some away_view) never_raises.
(** Invoked from an image editor: the space has no [region_3d]. *)
Definition ctx_image_editor : Context.t := scene "IMAGE_EDITOR" None never_raises.
(** Invoked with the area overridden to an image editor while the space is
    still the 3D view. *)
Definition ctx_area_overridden : Context.t := scene "IMAGE_EDITOR" (Some top_view) never_raises.
Definition ctx_no_object : Context.t :=
  Context.mk None "OBJECT" (Some (Area.mk "VIEW_3D")) (Some top_view) 80 never_raises.

Definition ev_key (type value : string) : Event.t := Event.mk type value false 0 0.
Definition ev_move (mx my : Z) : Event.t := Event.mk "MOUSEMOVE" "NOTHING" false mx my.
Definition ev_click (mx my : Z) : Event.t := Event.mk "LEFTMOUSE" "PRESS" false mx my.
Definition ev_timer : Event.t := ev_key "TIMER" "NOTHING".
Definition ev_esc : Event.t := ev_key "ESC" "PRESS".

(** A new operator instance: the class attributes of lines 188-191. *)
Definition new_operator : Operator := mkOperator None None [] None.
Definition new_world : World := mkWorld new_operator [].

(** The world right after [invoke] in the scene seen from above. *)
Definition started_world : World := handler_added (timer_started ctx_top new_world).

(** A world whose arrows were computed while there was an object. *)
Definition world_with_arrows : World :=
  mkWorld (with_arrows new_operator (refreshed_arrows top_view 80 mesh_obj)) [].

(** The session ended with the operator's own answer. *)
Definition ends_session (r : Res Status) : bool :=
  match r with
  | Done CANCELLED | Done FINISHED => true
  | _ => false
  end.

(** The arrows are the six of a refresh, in order, or there is none. *)
Definition arrows_in_order (o : Operator) : Prop :=
  map arrow_tag (_arrows o) = [] \/ map arrow_tag (_arrows o) = six_directions.

(** The direction tokens of [bpy.ops.mesh.symmetrize]. *)
Definition direction_tokens : list string :=
  [ "POSITIVE_X"; "NEGATIVE_X"; "POSITIVE_Y"; "NEGATIVE_Y"; "POSITIVE_Z"; "NEGATIVE_Z" ]%string.

(** The pointer on the tip of the X+ arrow of the scene: pixel (480, 300). *)
Definition hovering_world : World :=
  after_move ctx_top (ev_move 480 300) (after_timer ctx_top (ev_move 480 300) started_world).

(** The key press that starts the gesture. *)
Definition ev_start : Event.t := ev_key "X" "PRESS".

(** ** The preferences, the hotkey and the registration *)

Module Hotkey.

(** The hotkey fields of [SmartSymPreferences] (lines 47-51); [arrow_size]
    is carried by the context of the modal operator. *)
Record SmartSymPreferences : Type := mkPreferences {
  hotkey_type : string;
  hotkey_ctrl : bool;
  hotkey_shift : bool;
  hotkey_alt : bool;
  waiting_input : bool }.

(** [sep.join(parts)] *)
Fixpoint join (sep : string) (parts : list string) : string :=
  match parts with
  | [] => ""
  | p :: rest =>
      match rest with
      | [] => p
      | _ :: _ => p ++ sep ++ join sep rest
      end
  end.

Definition _format_hotkey (self : SmartSymPreferences) : string :=
  let parts := [] in
  let parts := if hotkey_ctrl self then parts ++ ["Ctrl"%string] else parts in
  let parts := if hotkey_shift self then parts ++ ["Shift"%string] else parts in
  let parts := if hotkey_alt self then parts ++ ["Alt"%string] else parts in
  let parts := parts ++ [hotkey_type self] in
  join " + " parts.

(** An item of a keymap; [id] stands for the identity of the object. *)
Module KeyMapItem.
Record t : Type := mk {
  id : nat;
  idname : string;
  type : string;
  value : string;
  ctrl : bool;
  shift : bool;
  alt : bool }.
End KeyMapItem.

(** The fields of an event the hotkey operators read. *)
Module KeyEvent.
Record t : Type := mk {
  type : string;
  value : string;
  ctrl : bool;
  shift : bool;
  alt : bool }.
End KeyEvent.

(** What the registration and the hotkey operators ask of the host, apart
    from the keymap. *)
Inductive AddonCall : Type :=
| RegisterClass (cls : string)
| UnregisterClass (cls : string)
| ReportInfo (message : string)
| ModalHandlerAddHotkey.

(** The preferences of the addon, the "Mesh" keymap of the addon key
    configuration (whether [wm.keyconfigs.addon] exists, and the items of
    the keymap), and the module's list [addon_keymaps]: its pairs all hold
    the one "Mesh" keymap, so an entry is the item. *)
Record Addon : Type := mkAddon {
  preferences : SmartSymPreferences;
  keyconfigs_addon : bool;
  keymap_items : list KeyMapItem.t;
  next_id : nat;
  addon_keymaps : list KeyMapItem.t;
  log : list AddonCall }.

Definition K (A : Type) : Type := Addon -> Res A * Addon.

Definition kret {A} (a : A) : K A := fun s => (Done a, s).
Definition kbind {A B} (c : K A) (k : A -> K B) : K B :=
  fun s => match c s with
           | (Done a, s') => k a s'
           | (Raised e, s') => (Raised e, s')
           end.
Definition kraise {A} (e : Exn) : K A := fun s => (Raised e, s).

Declare Scope k_scope.
Notation "x <- c ;; k" := (kbind c (fun x => k))
  (at level 61, c at next level, right associativity) : k_scope.
Notation "c ;; k" := (kbind c (fun _ => k))
  (at level 61, right associativity) : k_scope.
Local Open Scope k_scope.

Definition get : K Addon := fun s => (Done s, s).
Definition set_preferences (p : SmartSymPreferences) : K unit :=
  fun s => (Done tt, mkAddon p (keyconfigs_addon s) (keymap_items s) (next_id s)
                       (addon_keymaps s) (log s)).
Definition set_addon_keymaps (l : list KeyMapItem.t) : K unit :=
  fun s => (Done tt, mkAddon (preferences s) (keyconfigs_addon s) (keymap_items s) (next_id s)
                       l (log s)).
Definition call (c : AddonCall) : K unit :=
  fun s => (Done tt, mkAddon (preferences s) (keyconfigs_addon s) (keymap_items s) (next_id s)
                       (addon_keymaps s) (log s ++ [c])).

(** [km.keymap_items.new(idname, type=..., value=..., ctrl=..., shift=...,
    alt=...)]: a new item at the end of the keymap. *)
Definition keymap_items_new (idname type value : string) (ctrl shift alt : bool)
  : K KeyMapItem.t :=
  fun s =>
    let kmi := KeyMapItem.mk (next_id s) idname type value ctrl shift alt in
    (Done kmi, mkAddon (preferences s) (keyconfigs_addon s) (keymap_items s ++ [kmi])
                 (S (next_id s)) (addon_keymaps s) (log s)).

Definition same_item (a b : KeyMapItem.t) : bool :=
  Nat.eqb (KeyMapItem.id a) (KeyMapItem.id b).

(** [km.keymap_items.remove(kmi)]: the item leaves the keymap; the host
    refuses with an error ("KeyMapItem ... cannot be removed from ...") when
    the keymap does not hold it. *)
Definition keymap_items_remove (kmi : KeyMapItem.t) : K unit :=
  fun s =>
    if existsb (same_item kmi) (keymap_items s)
    then (Done tt, mkAddon (preferences s) (keyconfigs_addon s)
                     (filter (fun x => negb (same_item kmi x)) (keymap_items s))
                     (next_id s) (addon_keymaps s) (log s))
    else (Raised RuntimeError, s).

Fixpoint kfor_each {A} (l : list A) (body : A -> K unit) : K unit :=
  match l with
  | [] => kret tt
  | a :: l' => body a ;; kfor_each l' body
  end.

Definition register_hotkey : K unit :=
  s <- get ;;
  let prefs := preferences s in
  if negb (keyconfigs_addon s) then kret tt
  else
    kmi <- keymap_items_new "mesh.smart_symmetrize_modal" (hotkey_type prefs) "PRESS"
             (hotkey_ctrl prefs) (hotkey_shift prefs) (hotkey_alt prefs) ;;
    s <- get ;;
    set_addon_keymaps (addon_keymaps s ++ [kmi]).

Definition unregister_hotkey : K unit :=
  s <- get ;;
  kfor_each (addon_keymaps s) keymap_items_remove ;;
  set_addon_keymaps [].

(** [BH_OT_ChangeHotkey] *)
Module BH_OT_ChangeHotkey.

Definition invoke (event : KeyEvent.t) : K Status :=
  s <- get ;;
  let prefs := preferences s in
  set_preferences (mkPreferences (hotkey_type prefs) (hotkey_ctrl prefs) (hotkey_shift prefs)
                     (hotkey_alt prefs) true) ;;
  call ModalHandlerAddHotkey ;;
  kret RUNNING_MODAL.

Definition modal (event : KeyEvent.t) : K Status :=
  if (KeyEvent.value event =? "PRESS")%string then
    if in_strings (KeyEvent.type event) ["ESC"; "RIGHTMOUSE"]%string then
      s <- get ;;
      let prefs := preferences s in
      set_preferences (mkPreferences (hotkey_type prefs) (hotkey_ctrl prefs)
                         (hotkey_shift prefs) (hotkey_alt prefs) false) ;;
      kret CANCELLED
    else if in_strings (KeyEvent.type event)
              ["LEFT_SHIFT"; "RIGHT_SHIFT"; "LEFT_CTRL"; "RIGHT_CTRL"; "LEFT_ALT"; "RIGHT_ALT"]%string
    then kret RUNNING_MODAL
    else
      unregister_hotkey ;;
      set_preferences (mkPreferences (KeyEvent.type event) (KeyEvent.ctrl event)
                         (KeyEvent.shift event) (KeyEvent.alt event) false) ;;
      register_hotkey ;;
      s <- get ;;
      call (ReportInfo ("New hotkey: " ++ _format_hotkey (preferences s))) ;;
      kret FINISHED
  else kret RUNNING_MODAL.

End BH_OT_ChangeHotkey.

(** [BH_OT_ResetHotkey] *)
Module BH_OT_ResetHotkey.

Definition execute : K Status :=
  unregister_hotkey ;;
  s <- get ;;
  set_preferences (mkPreferences "X" false false true (waiting_input (preferences s))) ;;
  register_hotkey ;;
  call (ReportInfo "Hotkey reset to Alt+X") ;;
  kret FINISHED.

End BH_OT_ResetHotkey.

(** The tuple [classes] of line 305. *)
Definition classes : list string :=
  [ "SmartSymPreferences"; "BH_OT_ChangeHotkey"; "BH_OT_ResetHotkey";
    "MESH_OT_smart_symmetrize_modal" ]%string.

Definition register : K unit :=
  kfor_each classes (fun cls => call (RegisterClass cls)) ;;
  register_hotkey.

Definition unregister : K unit :=
  unregister_hotkey ;;
  kfor_each (rev classes) (fun cls => call (UnregisterClass cls)).

(** The keymap knows its items apart, and [next_id] is past all of them. *)
Definition keymap_ok (s : Addon) : Prop :=
  NoDup (map KeyMapItem.id (keymap_items s)) /\
  forall k, In k (keymap_items s) -> (KeyMapItem.id k < next_id s)%nat.

(** Every entry of [addon_keymaps] is an item of the keymap, each once. *)
Definition entries_ok (s : Addon) : Prop :=
  keymap_ok s /\
  NoDup (map KeyMapItem.id (addon_keymaps s)) /\
  forall k, In k (addon_keymaps s) -> In k (keymap_items s).

(** The item binds the modal operator to the hotkey of the preferences. *)
Definition item_matches (p : SmartSymPreferences) (k : KeyMapItem.t) : Prop :=
  KeyMapItem.idname k = "mesh.smart_symmetrize_modal"%string /\
  KeyMapItem.type k = hotkey_type p /\
  KeyMapItem.value k = "PRESS"%string /\
  KeyMapItem.ctrl k = hotkey_ctrl p /\
  KeyMapItem.shift k = hotkey_shift p /\
  KeyMapItem.alt k = hotkey_alt p.

(** The addon holds exactly one item, and it is the hotkey of the
    preferences. *)
Definition in_sync (s : Addon) : Prop :=
  entries_ok s /\
  exists k, addon_keymaps s = [k] /\ item_matches (preferences s) k.

(** The items of the keymap that are not the addon's. *)
Definition foreign_items (s : Addon) : list KeyMapItem.t :=
  filter (fun x => negb (existsb (same_item x) (addon_keymaps s))) (keymap_items s).

(** The item [register_hotkey] makes in state [s]. *)
Definition hotkey_item (s : Addon) : KeyMapItem.t :=
  KeyMapItem.mk (next_id s) "mesh.smart_symmetrize_modal" (hotkey_type (preferences s)) "PRESS"
    (hotkey_ctrl (preferences s)) (hotkey_shift (preferences s)) (hotkey_alt (preferences s)).

(** The state after a [register_hotkey] that found the key configuration. *)
Definition registered (s : Addon) : Addon :=
  mkAddon (preferences s) (keyconfigs_addon s) (keymap_items s ++ [hotkey_item s])
    (S (next_id s)) (addon_keymaps s ++ [hotkey_item s]) (log s).

(** The state after an [unregister_hotkey] that returned. *)
Definition unregistered (s : Addon) : Addon :=
  mkAddon (preferences s) (keyconfigs_addon s) (foreign_items s) (next_id s) [] (log s).

Definition with_preferences (s : Addon) (p : SmartSymPreferences) : Addon :=
  mkAddon p (keyconfigs_addon s) (keymap_items s) (next_id s) (addon_keymaps s) (log s).

Definition with_log (s : Addon) (l : list AddonCall) : Addon :=
  mkAddon (preferences s) (keyconfigs_addon s) (keymap_items s) (next_id s)
    (addon_keymaps s) (log s ++ l).

(** The state after the hotkey was taken out, the preferences set to [p] and
    the hotkey put back. *)
Definition rebound (s : Addon) (p : SmartSymPreferences) : Addon :=
  registered (with_preferences (unregistered s) p).

(** The keys [BH_OT_ChangeHotkey.modal] does not take for the hotkey. *)
Definition modifier_keys : list string :=
  [ "LEFT_SHIFT"; "RIGHT_SHIFT"; "LEFT_CTRL"; "RIGHT_CTRL"; "LEFT_ALT"; "RIGHT_ALT" ]%string.

(** A first start: the default preferences (Alt+X), a keymap with one item
    of another addon, nothing registered. *)
Definition default_preferences : SmartSymPreferences := mkPreferences "X" false false true false.
Definition other_item : KeyMapItem.t := KeyMapItem.mk 0 "mesh.other_tool" "Q" "PRESS" false false false.
Definition fresh_addon : Addon := mkAddon default_preferences true [other_item] 1 [] [].
Definition background_addon : Addon := mkAddon default_preferences false [] 0 [] [].

(** The addon registered at its first start. *)
Definition registered_addon : Addon := snd (register fresh_addon).

End Hotkey.

(** ** Vectors over the reals *)

Section VectorFacts.

Import Vector.

Lemma dot_self_nonneg v : 0 <= dot v v.
Proof. unfold dot. nra. Qed.

Lemma length_nonneg v : 0 <= length v.
Proof. apply sqrt_pos. Qed.

Lemma length_sqr v : length v * length v = dot v v.
Proof. apply sqrt_def, dot_self_nonneg. Qed.

Lemma dot_scale_l v w k : dot (scale v k) w = k * dot v w.
Proof. unfold dot, scale; simpl; ring. Qed.

Lemma dot_scale_r v w k : dot v (scale w k) = k * dot v w.
Proof. unfold dot, scale; simpl; ring. Qed.

Lemma dot_add_l a b w : dot (add a b) w = dot a w + dot b w.
Proof. unfold dot, add; simpl; ring. Qed.

Lemma dot_comm a b : dot a b = dot b a.
Proof. unfold dot; ring. Qed.

Lemma cross_dot_left a b : dot (cross a b) a = 0.
Proof. unfold dot, cross; simpl; ring. Qed.

Lemma cross_dot_right a b : dot (cross a b) b = 0.
Proof. unfold dot, cross; simpl; ring. Qed.

Lemma length_scale v k : 0 <= k -> length (scale v k) = k * length v.
Proof.
  intros Hk. unfold length.
  replace (dot (scale v k) (scale v k)) with ((k * k) * dot v v)
    by (unfold dot, scale; simpl; ring).
  rewrite sqrt_mult_alt by nra.
  rewrite sqrt_square by assumption. reflexivity.
Qed.

(** A vector that has a length is normalized to length one. *)
Lemma normalized_length v : length v <> 0 -> length (normalized v) = 1.
Proof.
  intros Hv. unfold normalized.
  destruct (Req_dec_T (length v) 0) as [E | _]; [contradiction |].
  pose proof (length_nonneg v) as Hp.
  rewrite length_scale.
  - field. assumption.
  - apply Rlt_le, Rinv_0_lt_compat. lra.
Qed.

Lemma normalized_zero_length v : length v = 0 -> normalized v = v.
Proof.
  intros Hv. unfold normalized.
  destruct (Req_dec_T (length v) 0) as [_ | N]; [reflexivity | contradiction].
Qed.

Lemma normalized_scale v : normalized v = scale v (/ length v).
Proof.
  unfold normalized. destruct (Req_dec_T (length v) 0) as [E | _]; [| reflexivity].
  rewrite E, Rinv_0.
  apply sqrt_eq_0 in E; [| apply dot_self_nonneg].
  destruct v as [a b c]. unfold dot in E; simpl in E.
  assert (a = 0) by nra. assert (b = 0) by nra. assert (c = 0) by nra.
  subst. unfold scale; simpl. f_equal; ring.
Qed.

Lemma length_unit_x : length (mk 1 0 0) = 1.
Proof. unfold length, dot; simpl. replace (1 * 1 + 0 * 0 + 0 * 0) with 1 by ring. apply sqrt_1. Qed.

Lemma length_unit_y : length (mk 0 1 0) = 1.
Proof. unfold length, dot; simpl. replace (0 * 0 + 1 * 1 + 0 * 0) with 1 by ring. apply sqrt_1. Qed.

Lemma length_unit_z : length (mk 0 0 1) = 1.
Proof. unfold length, dot; simpl. replace (0 * 0 + 0 * 0 + 1 * 1) with 1 by ring. apply sqrt_1. Qed.

Lemma length_zero : length (mk 0 0 0) = 0.
Proof. unfold length, dot; simpl. replace (0 * 0 + 0 * 0 + 0 * 0) with 0 by ring. apply sqrt_0. Qed.

Lemma normalized_unit v : length v = 1 -> normalized v = v.
Proof.
  intros Hv. rewrite normalized_scale, Hv.
  destruct v; unfold scale; simpl. f_equal; field.
Qed.

End VectorFacts.

(** ** The arrow geometry *)

Section Geometry.

Import Vector.

Lemma length_scale_abs v k : length (scale v k) = Rabs k * length v.
Proof.
  unfold length.
  replace (dot (scale v k) (scale v k)) with (Rsqr k * dot v v)
    by (unfold dot, scale, Rsqr; simpl; ring).
  rewrite sqrt_mult_alt by apply Rle_0_sqr.
  rewrite sqrt_Rsqr_abs. reflexivity.
Qed.

Lemma cross_with_y v : cross v (mk 0 1 0) = mk (- z v) 0 (x v).
Proof. destruct v; unfold cross; simpl; f_equal; ring. Qed.

Lemma side_reference_length dir_n : 1e-6 <= length (side_reference dir_n).
Proof.
  unfold side_reference.
  destruct (Rlt_dec (length (cross dir_n (mk 0 1 0))) 1e-6) as [Hs | Hs].
  - rewrite length_unit_x. lra.
  - lra.
Qed.

Lemma side_vector_length dir_n : length (side_vector dir_n) = 1.
Proof.
  unfold side_vector. apply normalized_length.
  pose proof (side_reference_length dir_n). lra.
Qed.

Lemma normalized_y : normalized (mk 0 1 0) = mk 0 1 0.
Proof. apply normalized_unit, length_unit_y. Qed.

Lemma normalized_x : normalized (mk 1 0 0) = mk 1 0 0.
Proof. apply normalized_unit, length_unit_x. Qed.

Lemma normalized_z : normalized (mk 0 0 1) = mk 0 0 1.
Proof. apply normalized_unit, length_unit_z. Qed.

Lemma side_vector_of_y : side_vector (mk 0 1 0) = mk 1 0 0.
Proof.
  unfold side_vector, side_reference.
  rewrite cross_with_y; simpl.
  replace (mk (- 0) 0 0) with (mk 0 0 0) by (f_equal; ring).
  rewrite length_zero.
  destruct (Rlt_dec 0 1e-6) as [_ | N]; [apply normalized_x | exfalso; lra].
Qed.

(** The second side vector is taken from a vector of length one as soon as
    the direction has a length; a direction of length zero is the one input
    for which line 164 normalizes the zero vector. *)
Lemma side2_reference_length direction :
  length direction <> 0 -> length (side2_reference (normalized direction)) <> 0.
Proof.
  intros Hd.
  pose proof (normalized_length direction Hd) as Hn.
  set (d := normalized direction) in *.
  assert (Hdd : dot d d = 1) by (rewrite <- length_sqr, Hn; ring).
  intros Hz.
  apply sqrt_eq_0 in Hz; [| apply dot_self_nonneg].
  unfold side2_reference, side_vector, side_reference in Hz.
  rewrite cross_with_y in Hz.
  destruct d as [a b c]; simpl in *.
  unfold dot in Hdd; simpl in Hdd.
  destruct (Rlt_dec (length (mk (- c) 0 a)) 1e-6) as [Hs | Hs].
  - rewrite normalized_x in Hz. unfold dot, cross in Hz; simpl in Hz.
    assert (Hl : length (mk (- c) 0 a) * length (mk (- c) 0 a) = c * c + a * a)
      by (rewrite length_sqr; unfold dot; simpl; ring).
    pose proof (length_nonneg (mk (- c) 0 a)) as Hp.
    assert (c * c + a * a < 1) by nra.
    nra.
  - rewrite normalized_scale in Hz.
    set (L := length (mk (- c) 0 a)) in *.
    assert (HL : L * L = c * c + a * a)
      by (unfold L; rewrite length_sqr; unfold dot; simpl; ring).
    assert (HLpos : 0 < L) by lra.
    unfold dot, cross, scale in Hz; simpl in Hz.
    assert (Hi : / L * L = 1) by (field; lra).
    assert (Hy : (b * (a * / L) - c * (0 * / L)) = b * a * / L) by ring.
    assert (Hq : (c * (- c * / L) - a * (a * / L)) * L = - (c * c + a * a)).
    { transitivity (- (c * c + a * a) * (/ L * L)); [ring | rewrite Hi; ring]. }
    assert (Hmid : c * (- c * / L) - a * (a * / L) = 0) by nra.
    rewrite Hmid in Hq. nra.
Qed.

Lemma unit_dot dn : length dn = 1 -> dot dn dn = 1.
Proof. intros H. rewrite <- length_sqr, H. ring. Qed.

(** For a direction that has a length, the vector line 164 normalizes is
    not near zero either: it has length one when the side vector came from
    the cross product with world Y, and nearly one when it is world X. *)
Lemma side2_reference_not_near_zero direction :
  length direction <> 0 -> 1e-6 <= length (side2_reference (normalized direction)).
Proof.
  intros Hd.
  pose proof (unit_dot _ (normalized_length direction Hd)) as Hdd.
  set (d := normalized direction) in *.
  pose proof (length_nonneg (side2_reference d)) as Hnn.
  pose proof (length_sqr (side2_reference d)) as Hsq.
  unfold side2_reference, side_vector, side_reference in *.
  rewrite cross_with_y in *.
  destruct d as [a b c]; simpl in *.
  unfold dot in Hdd; simpl in Hdd.
  pose proof (length_nonneg (mk (- c) 0 a)) as Hp.
  assert (HL : length (mk (- c) 0 a) * length (mk (- c) 0 a) = c * c + a * a)
    by (rewrite length_sqr; unfold dot; simpl; ring).
  destruct (Rlt_dec (length (mk (- c) 0 a)) 1e-6) as [Hs | Hs].
  - rewrite normalized_x in *. unfold dot in Hsq. unfold cross at 3 4 in Hsq; simpl in Hsq.
    set (l := length (cross (mk a b c) (mk 1 0 0))) in *.
    assert (Hsmall : c * c + a * a < 1e-12) by nra.
    assert (Hl : l * l = c * c + b * b) by (rewrite Hsq; ring).
    destruct (Rle_lt_dec 1e-6 l) as [Hok | Hlt]; [exact Hok | exfalso].
    assert (l * l < 1e-12) by nra.
    pose proof (Rle_0_sqr c) as Hc. unfold Rsqr in Hc. lra.
  - rewrite normalized_scale in *.
    set (L := length (mk (- c) 0 a)) in *.
    assert (HLpos : 0 < L) by lra.
    assert (Hi : / L * L = 1) by (field; lra).
    set (i := / L) in *.
    set (l := length (cross (mk a b c) (mk (- c) 0 a * i))) in *.
    unfold dot, cross, scale in Hsq; simpl in Hsq.
    assert (Hone : (b * (a * i) - c * (0 * i)) * (b * (a * i) - c * (0 * i)) +
                   (c * (- c * i) - a * (a * i)) * (c * (- c * i) - a * (a * i)) +
                   (a * (0 * i) - b * (- c * i)) * (a * (0 * i) - b * (- c * i)) = 1).
    { transitivity ((i * i) * ((c * c + a * a) * (a * a + b * b + c * c))); [ring |].
      rewrite Hdd, <- HL.
      transitivity ((i * L) * (i * L)); [ring |]. rewrite Hi. ring. }
    rewrite Hone in Hsq. nra.
Qed.

Lemma side2_reference_zero direction :
  length direction = 0 -> side2_reference (normalized direction) = mk 0 0 0.
Proof.
  intros Hd. rewrite (normalized_zero_length direction Hd).
  apply sqrt_eq_0 in Hd; [| apply dot_self_nonneg].
  unfold side2_reference.
  destruct direction as [a b c]. unfold dot in Hd; simpl in Hd.
  assert (a = 0) by nra. assert (b = 0) by nra. assert (c = 0) by nra. subst.
  unfold cross; simpl. f_equal; ring.
Qed.

Lemma normalized_origin : normalized (mk 0 0 0) = mk 0 0 0.
Proof. apply normalized_zero_length, length_zero. Qed.

(** C9, against the claim as stated: for the direction (0, 0, 0) the
    normalized direction is zero, so the cross product of line 164 is the
    zero vector: [normalized] is applied to a vector of length 0, below
    1e-6. *)
Lemma zero_direction_normalizes_zero_vector :
  side2_reference (normalized (mk 0 0 0)) = mk 0 0 0 /\
  length (side2_reference (normalized (mk 0 0 0))) = 0 /\
  ~ 1e-6 <= length (side2_reference (normalized (mk 0 0 0))) /\
  side2_vector (normalized (mk 0 0 0)) = mk 0 0 0.
Proof.
  assert (H : side2_reference (normalized (mk 0 0 0)) = mk 0 0 0)
    by (apply side2_reference_zero, length_zero).
  unfold side2_vector. rewrite H, length_zero, normalized_origin.
  repeat split. lra.
Qed.

(** C9, amended.  Whatever the direction, the vector that [side.normalize()]
    (line 163) is applied to is never near zero: its length is at least
    1e-6; when the cross product of the normalized direction with world Y is
    shorter than 1e-6 the reference is world X; the side vector has length
    one, and for the direction (0, 1, 0) it is world X.  The second
    normalization (line 164) gets a vector of length at least 1e-6, and gives
    a second side vector of length one, for every direction that has a
    length; for a direction of length zero it gets the zero vector and gives
    it back. *)
Theorem side_vector_normalizations (direction : Vector.t) :
  let dir_n := normalized direction in
  1e-6 <= length (side_reference dir_n) /\
  (length (cross dir_n (mk 0 1 0)) < 1e-6 -> side_reference dir_n = mk 1 0 0) /\
  length (side_vector dir_n) = 1 /\
  length (side_vector dir_n) <> 0 /\
  side_vector (normalized (mk 0 1 0)) = mk 1 0 0 /\
  (length direction <> 0 ->
     1e-6 <= length (side2_reference dir_n) /\ length (side2_vector dir_n) = 1) /\
  (length direction = 0 ->
     side2_reference dir_n = mk 0 0 0 /\ side2_vector dir_n = mk 0 0 0).
Proof.
  intros dir_n. split; [apply side_reference_length |].
  split.
  { intros Hs. unfold side_reference.
    destruct (Rlt_dec (length (cross dir_n (mk 0 1 0))) 1e-6); [reflexivity | contradiction]. }
  rewrite side_vector_length, normalized_y, side_vector_of_y.
  split; [reflexivity |]. split; [lra |]. split; [reflexivity |].
  split.
  - intros Hd. pose proof (side2_reference_not_near_zero direction Hd) as H.
    split; [exact H |]. unfold side2_vector. apply normalized_length.
    unfold dir_n. lra.
  - intros Hd. pose proof (side2_reference_zero direction Hd) as H. fold dir_n in H.
    split; [exact H |]. unfold side2_vector. rewrite H. apply normalized_origin.
Qed.

(** The side vector from the cross product with world Y for the direction
    (1, 2, 2), and the second one from a vector of length one. *)
Lemma side_vector_normalizations_witness :
  1e-6 <= length (side2_reference (normalized (mk 1 2 2))) /\
  length (side2_vector (normalized (mk 1 2 2))) = 1.
Proof.
  apply (side_vector_normalizations (mk 1 2 2)).
  unfold length, dot; simpl.
  replace (1 * 1 + 2 * 2 + 2 * 2) with (3 * 3) by ring.
  rewrite sqrt_square; lra.
Defined.

End Geometry.

(** ** The degeneracy guard of the refresh *)

Section Guard.

Import Vector.


Lemma dot_normalized_l d v : dot (normalized d) v = dot d v * / length d.
Proof. rewrite normalized_scale, dot_scale_l. ring. Qed.


Lemma tilted_sqr view_dir dir_ws :
  length (cross view_dir dir_ws) <> 0 ->
  let tilt := (normalized (cross view_dir dir_ws) * 0.1)%vec in
  dot (dir_ws + tilt) (dir_ws + tilt) = dot dir_ws dir_ws + 0.01.
Proof.
  intros Hc tilt.
  set (c := cross view_dir dir_ws) in *.
  assert (Hcd : dot c dir_ws = 0) by apply cross_dot_right.
  assert (Hn : dot (normalized c) (normalized c) = 1).
  { rewrite <- length_sqr, normalized_length by exact Hc. ring. }
  assert (Hnd : dot (normalized c) dir_ws = 0).
  { rewrite dot_normalized_l, Hcd. ring. }
  unfold tilt.
  rewrite dot_add_l, (dot_comm dir_ws (dir_ws + _)), (dot_comm (_ * 0.1)%vec (dir_ws + _)).
  rewrite !dot_add_l, !dot_scale_l, !dot_scale_r.
  rewrite (dot_comm dir_ws (normalized c)), Hnd, Hn. lra.
Qed.


Lemma cross_antiparallel_z : cross (mk 0 0 (-1)) (mk 0 0 1) = mk 0 0 0.
Proof. unfold cross; simpl; f_equal; ring. Qed.

Lemma normalized_zero : normalized (mk 0 0 0) = mk 0 0 0.
Proof. apply normalized_zero_length, length_zero. Qed.

Lemma parallel_dot_z : Rabs (dot (normalized (mk 0 0 1)) (mk 0 0 (-1))) = 1.
Proof.
  rewrite normalized_z. unfold dot; simpl.
  replace (0 * 0 + 0 * 0 + 1 * -1) with (- (1)) by ring.
  rewrite Rabs_Ropp. apply Rabs_R1.
Qed.

(** Looking down the Z axis the tilt is the normalized cross product of two
    parallel vectors, which is zero: the guard changes nothing. *)
Lemma tilt_direction_z_from_above : tilt_direction (mk 0 0 (-1)) (mk 0 0 1) = mk 0 0 1.
Proof.
  unfold tilt_direction. rewrite parallel_dot_z.
  destruct (Rlt_dec 0.96 1) as [_ | N]; [| exfalso; lra].
  rewrite cross_antiparallel_z, normalized_zero.
  replace (mk 0 0 1 + mk 0 0 0 * 0.1)%vec with (mk 0 0 1)
    by (unfold add, scale; simpl; f_equal; ring).
  apply normalized_z.
Qed.

End Guard.

(** ** The refresh *)

Ltac run_m :=
  cbv [bind ret raise host when set_arrows set_hover set_timer set_handle
       modify_self set_self get_self append_arrow event_timer_add draw_handler_add
       new_id self calls _handle _timer _arrows _hover].

Lemma update_arrows_no_object context w :
  Context.object context = None -> update_arrows context w = (Done tt, w).
Proof. intros H. unfold update_arrows. rewrite H. reflexivity. Qed.

Lemma update_arrows_no_view context obj w :
  Context.object context = Some obj -> Context.view context = None ->
  update_arrows context w = (Raised AttributeError, w).
Proof. intros Ho Hv. unfold update_arrows. rewrite Ho, Hv. reflexivity. Qed.

Lemma update_arrows_object context obj rv3d w :
  Context.object context = Some obj -> Context.view context = Some rv3d ->
  update_arrows context w =
    (Done tt, mkWorld (with_arrows (self w)
                         (refreshed_arrows rv3d (Context.arrow_size context) obj)) (calls w)).
Proof.
  intros Ho Hv. unfold update_arrows, refreshed_arrows. rewrite Ho, Hv.
  cbv zeta.
  destruct (View.location_3d_to_region_2d rv3d
              (Matrix.translation (Object.matrix_world obj))) as [p |]; reflexivity.
Qed.

Lemma world_eta w : mkWorld (self w) (calls w) = w.
Proof. destruct w; reflexivity. Qed.

Lemma operator_eta o : mkOperator (_handle o) (_timer o) (_arrows o) (_hover o) = o.
Proof. destruct o; reflexivity. Qed.

Lemma logged_nil w : logged w [] = w.
Proof. unfold logged. rewrite app_nil_r. apply world_eta. Qed.

Lemma logged_logged w l1 l2 : logged (logged w l1) l2 = logged w (l1 ++ l2).
Proof. unfold logged; simpl. rewrite app_assoc. reflexivity. Qed.

Lemma update_arrows_eq context w :
  update_arrows context w =
    if refresh_raises context then (Raised AttributeError, w)
    else (Done tt, refreshed context w).
Proof.
  unfold refresh_raises, refreshed, arrows_after.
  destruct (Context.object context) as [obj |] eqn:Ho.
  - destruct (Context.view context) as [rv3d |] eqn:Hv.
    + apply (update_arrows_object _ _ _ _ Ho Hv).
    + apply (update_arrows_no_view _ _ _ Ho Hv).
  - rewrite update_arrows_no_object by exact Ho.
    unfold with_arrows. rewrite operator_eta, world_eta. reflexivity.
Qed.

(** ** The handlers as functions on worlds *)

Lemma bind_done {A B} (c : M A) (k : A -> M B) w a w' :
  c w = (Done a, w') -> bind c k w = k a w'.
Proof. intros H. unfold bind. rewrite H. reflexivity. Qed.

Lemma bind_raised {A B} (c : M A) (k : A -> M B) w e w' :
  c w = (Raised e, w') -> bind c k w = (Raised e, w').
Proof. intros H. unfold bind. rewrite H. reflexivity. Qed.

Lemma host_eq c w : host c w = (Done tt, logged w [c]).
Proof. reflexivity. Qed.

Lemma redraw_eq context w :
  match Context.area context with Some _ => host TagRedraw | None => ret tt end w
  = (Done tt, logged w (redraw_calls context)).
Proof.
  unfold redraw_calls. destruct (Context.area context).
  - reflexivity.
  - rewrite logged_nil. reflexivity.
Qed.

Lemma finish_eq context w : finish context w = (Done tt, finished context w).
Proof.
  unfold finish, finished, release_calls.
  rewrite (bind_done _ _ w (self w) w) by reflexivity.
  destruct (_timer (self w)) as [t |], (_handle (self w)) as [h |].
  - rewrite (bind_done _ _ w tt (logged w [EventTimerRemove t])) by reflexivity.
    rewrite (bind_done _ _ _ tt (logged (logged w [EventTimerRemove t]) [DrawHandlerRemove h]))
      by reflexivity.
    rewrite redraw_eq, !logged_logged. reflexivity.
  - rewrite (bind_done _ _ w tt (logged w [EventTimerRemove t])) by reflexivity.
    rewrite (bind_done _ _ _ tt (logged w [EventTimerRemove t])) by reflexivity.
    rewrite redraw_eq, !logged_logged. reflexivity.
  - rewrite (bind_done _ _ w tt w) by reflexivity.
    rewrite (bind_done _ _ _ tt (logged w [DrawHandlerRemove h])) by reflexivity.
    rewrite redraw_eq, !logged_logged. reflexivity.
  - rewrite (bind_done _ _ w tt w) by reflexivity.
    rewrite (bind_done _ _ _ tt w) by reflexivity.
    rewrite redraw_eq. reflexivity.
Qed.

Lemma modal_eq context event w :
  modal context event w =
    if timer_raises context event
    then (Raised AttributeError, logged w (redraw_calls context))
    else
    let w2 := after_timer context event w in
    if pass_through event then (Done PASS_THROUGH, w2)
    else if move_raises context event then (Raised AttributeError, w2)
    else
      let w3 := after_move context event w2 in
      if in_strings (Event.type event) ["RIGHTMOUSE"; "ESC"]%string
      then (Done CANCELLED, finished context w3)
      else if ((Event.type event =? "LEFTMOUSE") && (Event.value event =? "PRESS"))%string
      then
        match _hover (self w3) with
        | None => (Done RUNNING_MODAL, w3)
        | Some hover =>
            match nth_error (_arrows (self w3)) hover with
            | None => (Raised IndexError, w3)
            | Some a =>
                let w4 := logged w3 [Symmetrize (direction_token a) 0.0001] in
                if Context.symmetrize_raises context (direction_token a) 0.0001
                then (Raised RuntimeError, w4)
                else (Done FINISHED, finished context w4)
            end
        end
      else (Done RUNNING_MODAL, w3).
Proof.
  unfold modal. cbv zeta.
  rewrite (bind_done _ _ _ _ _ (redraw_eq context w)).
  assert (Ht : when (Event.type event =? "TIMER")%string (update_arrows context)
                 (logged w (redraw_calls context))
               = if timer_raises context event
                 then (Raised AttributeError, logged w (redraw_calls context))
                 else (Done tt, after_timer context event w)).
  { unfold after_timer, timer_raises, when.
    destruct (Event.type event =? "TIMER")%string; [apply update_arrows_eq | reflexivity]. }
  destruct (timer_raises context event).
  { apply (bind_raised _ _ _ _ _ Ht). }
  rewrite (bind_done _ _ _ _ _ Ht).
  fold (pass_through event).
  destruct (pass_through event); [reflexivity |].
  set (w2 := after_timer context event w).
  assert (Hm : when (Event.type event =? "MOUSEMOVE")%string
                 (match Context.view context with
                  | None => raise AttributeError
                  | Some rv3d =>
                      set_hover None ;;
                      o <- get_self ;;
                      match hit_scan rv3d (Event.mouse_region_x event)
                              (Event.mouse_region_y event) 0 (_arrows o) with
                      | Some i => set_hover (Some i)
                      | None => ret tt
                      end
                  end) w2
               = if move_raises context event then (Raised AttributeError, w2)
                 else (Done tt, after_move context event w2)).
  { unfold after_move, move_raises, when.
    destruct (Event.type event =? "MOUSEMOVE")%string; [| reflexivity].
    destruct (Context.view context) as [rv3d |]; [| reflexivity].
    cbn [andb]. run_m. unfold with_hover.
    destruct w2 as [[h t l i] cs]. cbn [self calls _arrows _handle _timer _hover].
    destruct (hit_scan _ _ _ _ _); reflexivity. }
  destruct (move_raises context event).
  { apply (bind_raised _ _ _ _ _ Hm). }
  rewrite (bind_done _ _ _ _ _ Hm).
  set (w3 := after_move context event w2).
  destruct (in_strings (Event.type event) ["RIGHTMOUSE"; "ESC"]%string).
  { rewrite (bind_done _ _ _ _ _ (finish_eq context w3)). reflexivity. }
  rewrite (bind_done _ _ w3 (self w3) w3) by reflexivity.
  destruct ((Event.type event =? "LEFTMOUSE") && (Event.value event =? "PRESS"))%string;
    [| reflexivity].
  destruct (_hover (self w3)) as [hover |]; [| reflexivity].
  destruct (nth_error (_arrows (self w3)) hover) as [a |]; [| reflexivity].
  unfold bpy_ops_mesh_symmetrize.
  destruct (Context.symmetrize_raises context (direction_token a) 0.0001) eqn:Hr.
  - unfold bind at 1. unfold bind at 1. rewrite host_eq. unfold raise. reflexivity.
  - unfold bind at 1. unfold bind at 1. rewrite host_eq. unfold ret at 1.
    rewrite (bind_done _ _ _ _ _ (finish_eq context _)). reflexivity.
Qed.

Lemma invoke_eq context event w :
  invoke context event w =
    if entry_refused context
    then (Done CANCELLED, logged w [Report "WARNING" "Edit Mode mesh required"])
    else if refresh_raises context
    then (Raised AttributeError, logged w [ShaderFromBuiltin "UNIFORM_COLOR"])
    else
      let w2 := timer_started context w in
      match Context.area context with
      | None => (Raised AttributeError, w2)
      | Some a =>
          if (Area.type a =? "VIEW_3D")%string
          then (Done RUNNING_MODAL, handler_added w2)
          else (Done CANCELLED, logged w2 [Report "WARNING" "View3D area required"])
      end.
Proof.
  unfold invoke, entry_refused.
  destruct (Context.object context) as [obj |]; [| reflexivity].
  destruct (negb (Object.type obj =? "MESH")%string
            || negb (Context.mode context =? "EDIT_MESH")%string); [reflexivity |].
  rewrite (bind_done _ _ _ _ _ (host_eq _ w)).
  pose proof (update_arrows_eq context (logged w [ShaderFromBuiltin "UNIFORM_COLOR"])) as Hu.
  destruct (refresh_raises context).
  { apply (bind_raised _ _ _ _ _ Hu). }
  rewrite (bind_done _ _ _ _ _ Hu).
  cbv zeta.
  set (w1 := refreshed context (logged w [ShaderFromBuiltin "UNIFORM_COLOR"])).
  assert (Ht : event_timer_add 0.25 w1
               = (Done (List.length (calls w1)),
                  logged w1 [EventTimerAdd 0.25 (List.length (calls w1))])) by reflexivity.
  rewrite (bind_done _ _ _ _ _ Ht).
  assert (Hs : set_timer (Some (List.length (calls w1)))
                 (logged w1 [EventTimerAdd 0.25 (List.length (calls w1))])
               = (Done tt, timer_started context w)) by reflexivity.
  rewrite (bind_done _ _ _ _ _ Hs).
  destruct (Context.area context) as [a |]; [| reflexivity].
  destruct (Area.type a =? "VIEW_3D")%string; [| reflexivity].
  unfold handler_added, with_handle. run_m.
  rewrite <- app_assoc. reflexivity.
Qed.

(** ** The scene seen from above *)

Section TopView.

Import Vector.

Ltac vec_ring :=
  unfold add, sub, scale, cross, Matrix.to_3x3_mul, dot; simpl; f_equal; ring.

Lemma length_along_x a : 0 <= a -> length (mk a 0 0) = a.
Proof.
  intros Ha. unfold length, dot; simpl.
  replace (a * a + 0 * 0 + 0 * 0) with (a * a) by ring.
  apply sqrt_square, Ha.
Qed.

Lemma normalized_minus_z : normalized (mk 0 0 (-1)) = mk 0 0 (-1).
Proof.
  apply normalized_unit. unfold length, dot; simpl.
  replace (0 * 0 + 0 * 0 + -1 * -1) with 1 by ring. apply sqrt_1.
Qed.

Lemma tilt_direction_x_from_above : tilt_direction (mk 0 0 (-1)) (mk 1 0 0) = mk 1 0 0.
Proof.
  unfold tilt_direction. rewrite normalized_x.
  replace (dot (mk 1 0 0) (mk 0 0 (-1))) with 0 by (unfold dot; simpl; ring).
  rewrite Rabs_R0.
  destruct (Rlt_dec 0.96 0) as [N | _]; [exfalso; lra | reflexivity].
Qed.

(** The length that is 80 pixels on screen: 80 world units in this view. *)
Lemma top_view_length p :
  p = Vector2.mk (0 + 400) (0 + 300) ->
  length (View.region_2d_to_location_3d top_view
            (Vector2.add p (Vector2.mk 80 0)) (mk 0 0 0) - mk 0 0 0) = 80.
Proof.
  intros ->.
  replace (View.region_2d_to_location_3d top_view
             (Vector2.add (Vector2.mk (0 + 400) (0 + 300)) (Vector2.mk 80 0)) (mk 0 0 0)
           - mk 0 0 0)%vec with (mk 80 0 0)
    by (unfold sub, Vector2.add; simpl; f_equal; ring).
  apply length_along_x. lra.
Qed.

(** The tip of the X+ arrow of the scene, seen from above. *)
Lemma x_plus_tip :
  tip (built_arrow top_view 80 mesh_obj (Vector2.mk (0 + 400) (0 + 300)) ("X"%string, 1%Z))
  = mk 80 0 0.
Proof.
  unfold built_arrow, mesh_obj, axis_vector. cbn [tip
    Object.matrix_world Matrix.translation String.eqb Ascii.eqb Bool.eqb].
  rewrite top_view_length by reflexivity.
  cbn [View.view_rotation top_view].
  rewrite normalized_minus_z.
  replace (Matrix.to_3x3_mul _ (mk 1 0 0) * 1)%vec with (mk 1 0 0) by vec_ring.
  rewrite tilt_direction_x_from_above.
  unfold make_solid_arrow. cbn [snd]. rewrite normalized_x. vec_ring.
Qed.

(** Seen from above the Z+ arrow is not tilted (the guard leaves the exactly
    parallel direction as it is), so its tip lies straight above the origin. *)
Lemma z_plus_tip :
  tip (built_arrow top_view 80 mesh_obj (Vector2.mk (0 + 400) (0 + 300)) ("Z"%string, 1%Z))
  = mk 0 0 80.
Proof.
  unfold built_arrow, mesh_obj, axis_vector. cbn [tip
    Object.matrix_world Matrix.translation String.eqb Ascii.eqb Bool.eqb].
  rewrite top_view_length by reflexivity.
  cbn [View.view_rotation top_view].
  rewrite normalized_minus_z.
  replace (Matrix.to_3x3_mul _ (mk 0 0 1) * 1)%vec with (mk 0 0 1) by vec_ring.
  rewrite tilt_direction_z_from_above.
  unfold make_solid_arrow. cbn [snd]. rewrite normalized_z. vec_ring.
Qed.

(** C7, on the code: seen from above (view ray (0, 0, -1)), the Z axis of an
    unrotated object is past the 0.96 threshold, and the guard hands it back
    as it was, a unit vector as parallel to the view ray as before (1, not
    less).  The Z+ arrow the refresh of the scene builds from it (the fifth
    of the list) has its tip straight above the origin, so tip and origin
    project to the same pixel. *)
Theorem tilt_direction_parallel_unchanged :
  let view_dir := mk 0 0 (-1) in
  let dir_ws := mk 0 0 1 in
  0.96 < Rabs (dot (normalized dir_ws) view_dir) /\
  tilt_direction view_dir dir_ws = dir_ws /\
  Rabs (dot (tilt_direction view_dir dir_ws) view_dir) = 1 /\
  Rabs (dot (normalized dir_ws) view_dir) = 1 /\
  ~ Rabs (dot (tilt_direction view_dir dir_ws) view_dir)
      < Rabs (dot (normalized dir_ws) view_dir) /\
  (exists z_plus,
     nth_error (_arrows (self (snd (update_arrows ctx_top new_world)))) 4 = Some z_plus /\
     arrow_tag z_plus = ("Z"%string, 1%Z) /\
     View.location_3d_to_region_2d top_view (tip z_plus)
     = View.location_3d_to_region_2d top_view
         (Matrix.translation (Object.matrix_world mesh_obj))).
Proof.
  intros view_dir dir_ws. unfold view_dir, dir_ws.
  rewrite tilt_direction_z_from_above, parallel_dot_z.
  assert (Hraw : Rabs (dot (mk 0 0 1) (mk 0 0 (-1))) = 1).
  { unfold dot; simpl.
    replace (0 * 0 + 0 * 0 + 1 * -1) with (- (1)) by ring.
    rewrite Rabs_Ropp. apply Rabs_R1. }
  rewrite Hraw.
  repeat split; try lra.
  exists (built_arrow top_view 80 mesh_obj (Vector2.mk (0 + 400) (0 + 300)) ("Z"%string, 1%Z)).
  split; [rewrite update_arrows_eq; reflexivity |].
  split; [reflexivity |].
  rewrite z_plus_tip. reflexivity.
Qed.

End TopView.

(** ** How many arrows a refresh leaves *)

Lemma built_arrow_tag rv3d arrow_px obj p tag :
  arrow_tag (built_arrow rv3d arrow_px obj p tag) = tag.
Proof. destruct tag as [axis_name sign]. reflexivity. Qed.

Lemma refreshed_arrows_some rv3d arrow_px obj p :
  View.location_3d_to_region_2d rv3d (Matrix.translation (Object.matrix_world obj)) = Some p ->
  List.length (refreshed_arrows rv3d arrow_px obj) = 6%nat /\
  map arrow_tag (refreshed_arrows rv3d arrow_px obj) = six_directions.
Proof.
  intros Hp. unfold refreshed_arrows. rewrite Hp.
  split; [reflexivity |].
  rewrite map_map.
  rewrite (map_ext _ (fun tag => tag)) by (intros tag; apply built_arrow_tag).
  apply map_id.
Qed.

Lemma refreshed_arrows_tags rv3d arrow_px obj :
  map arrow_tag (refreshed_arrows rv3d arrow_px obj) = [] \/
  map arrow_tag (refreshed_arrows rv3d arrow_px obj) = six_directions.
Proof.
  destruct (View.location_3d_to_region_2d rv3d
              (Matrix.translation (Object.matrix_world obj))) as [p |] eqn:Hp.
  - right. apply (refreshed_arrows_some _ _ _ _ Hp).
  - left. unfold refreshed_arrows. rewrite Hp. reflexivity.
Qed.

(** C4, against the claim as stated: when the origin of the object does not
    project to the region (here: the camera has moved away), the refresh
    leaves no arrow at all, not six. *)
Lemma refresh_off_screen_builds_no_arrow :
  fst (update_arrows ctx_away new_world) = Done tt /\
  _arrows (self (snd (update_arrows ctx_away new_world))) = [] /\
  List.length (_arrows (self (snd (update_arrows ctx_away new_world)))) <> 6%nat.
Proof.
  rewrite update_arrows_eq. cbn. repeat split. discriminate.
Qed.

(** C4, amended: a refresh for an object whose origin projects to the region
    of the 3D view leaves exactly six arrows, X+, X-, Y+, Y-, Z+, Z- in this
    order; when the origin does not project it leaves none.  Without an
    object the refresh returns with the list as it was, and with an object
    but no 3D view to read it raises with the list as it was. *)
Theorem update_arrows_count (context : Context.t) (w : World) :
  let arrows := _arrows (self (snd (update_arrows context w))) in
  match Context.object context, Context.view context with
  | None, _ => fst (update_arrows context w) = Done tt /\ arrows = _arrows (self w)
  | Some _, None => fst (update_arrows context w) = Raised AttributeError /\ arrows = _arrows (self w)
  | Some obj, Some rv3d =>
      fst (update_arrows context w) = Done tt /\
      match View.location_3d_to_region_2d rv3d
              (Matrix.translation (Object.matrix_world obj)) with
      | Some _ => List.length arrows = 6%nat /\ map arrow_tag arrows = six_directions
      | None => arrows = []
      end
  end.
Proof.
  intros arrows. unfold arrows. rewrite update_arrows_eq.
  unfold refresh_raises, refreshed, arrows_after.
  destruct (Context.object context) as [obj |]; [| split; reflexivity].
  destruct (Context.view context) as [rv3d |]; [| split; reflexivity].
  cbn [fst snd self _arrows with_arrows].
  split; [reflexivity |].
  destruct (View.location_3d_to_region_2d rv3d
              (Matrix.translation (Object.matrix_world obj))) as [p |] eqn:Hp.
  - apply (refreshed_arrows_some _ _ _ _ Hp).
  - unfold refreshed_arrows. rewrite Hp. reflexivity.
Qed.

(** ** A refresh without an object *)

Lemma modal_timer_eq context event w :
  Event.type event = "TIMER"%string ->
  refresh_raises context = false ->
  modal context event w
  = (Done RUNNING_MODAL, refreshed context (logged w (redraw_calls context))).
Proof.
  intros Ht Hr. rewrite modal_eq. cbv zeta.
  unfold timer_raises, move_raises, pass_through, after_move, after_timer.
  rewrite Ht, Hr. reflexivity.
Qed.

(** C10. Without an active object the refresh returns at once and changes
    nothing: the world is as it was, so the arrows computed earlier stay in
    [self._arrows].  A timer tick then only asks for a redraw, and what
    the draw callback draws and what the hit test finds are what they were
    before. *)
Theorem update_arrows_without_object (context : Context.t) (w : World) :
  Context.object context = None ->
  update_arrows context w = (Done tt, w) /\
  (forall event, Event.type event = "TIMER"%string ->
     modal context event w = (Done RUNNING_MODAL, logged w (redraw_calls context))) /\
  draw_commands (self (snd (update_arrows context w))) = draw_commands (self w) /\
  (forall rv3d mx my,
     hit_scan rv3d mx my 0 (_arrows (self (snd (update_arrows context w))))
     = hit_scan rv3d mx my 0 (_arrows (self w))).
Proof.
  intros Ho.
  assert (Hu : update_arrows context w = (Done tt, w))
    by (apply update_arrows_no_object, Ho).
  rewrite Hu. cbn [snd].
  repeat split.
  intros event Ht.
  rewrite modal_timer_eq by (try exact Ht; unfold refresh_raises; rewrite Ho; reflexivity).
  f_equal. unfold refreshed, arrows_after. rewrite Ho.
  unfold with_arrows. rewrite operator_eta. apply world_eta.
Qed.

(** The object is gone while six arrows are in place: they stay. *)
Lemma update_arrows_without_object_witness :
  update_arrows ctx_no_object world_with_arrows = (Done tt, world_with_arrows) /\
  List.length (_arrows (self (snd (update_arrows ctx_no_object world_with_arrows)))) = 6%nat.
Proof.
  destruct (update_arrows_without_object ctx_no_object world_with_arrows eq_refl) as (H & _).
  rewrite H. split; reflexivity.
Defined.

(** ** The hit test *)

Lemma sqrt_le_20 s : 0 <= s -> (sqrt s <= 20 <-> s <= 20 ^ 2).
Proof.
  intros Hs. split; intros H.
  - pose proof (sqrt_def s Hs). pose proof (sqrt_pos s). nra.
  - replace 20 with (sqrt (20 * 20)) by (apply sqrt_square; lra).
    apply sqrt_le_1_alt. simpl in H. lra.
Qed.

(** The comparison of squares of line 248 is the comparison of the distance
    with 20 pixels, 20 included. *)
Lemma tip_hit_within rv3d mx my a :
  tip_hit rv3d mx my a = true <-> tip_within rv3d mx my 20 a.
Proof.
  unfold tip_hit, tip_within.
  destruct (View.location_3d_to_region_2d rv3d (tip a)) as [p |].
  - set (s := (IZR mx - Vector2.x p) ^ 2 + (IZR my - Vector2.y p) ^ 2).
    assert (Hs : 0 <= s) by (unfold s; apply Rplus_le_le_0_compat; apply pow2_ge_0).
    destruct (Rle_dec s (20 ^ 2)) as [Hle | Hgt]; split.
    + intros _. exists p. split; [reflexivity |]. apply sqrt_le_20; assumption.
    + reflexivity.
    + discriminate.
    + intros (q & Hq & Hd). injection Hq as <-. apply sqrt_le_20 in Hd; [contradiction | exact Hs].
  - split; [discriminate |]. intros (q & Hq & _). discriminate.
Qed.

Lemma hit_scan_some rv3d mx my arrows : forall i k,
  hit_scan rv3d mx my i arrows = Some k ->
  exists j a, k = (i + j)%nat /\ nth_error arrows j = Some a /\
    tip_hit rv3d mx my a = true /\
    forall j' b, (j' < j)%nat -> nth_error arrows j' = Some b -> tip_hit rv3d mx my b = false.
Proof.
  induction arrows as [| a rest IH]; intros i k H; simpl in H; [discriminate |].
  destruct (tip_hit rv3d mx my a) eqn:Ha.
  - injection H as <-. exists 0%nat, a. repeat split; [lia | assumption |].
    intros j' b Hj. lia.
  - destruct (IH _ _ H) as (j & b & -> & Hn & Hb & Hfirst).
    exists (S j), b. repeat split; [lia | assumption | assumption |].
    intros [| j'] c Hj Hc; simpl in Hc.
    + injection Hc as <-. exact Ha.
    + apply (Hfirst j'); [lia | exact Hc].
Qed.

Lemma hit_scan_none rv3d mx my arrows : forall i,
  hit_scan rv3d mx my i arrows = None ->
  forall b, In b arrows -> tip_hit rv3d mx my b = false.
Proof.
  induction arrows as [| a rest IH]; intros i H b Hb; simpl in *; [contradiction |].
  destruct (tip_hit rv3d mx my a) eqn:Ha; [discriminate |].
  destruct Hb as [<- | Hb]; [exact Ha | exact (IH _ H b Hb)].
Qed.

Lemma hit_scan_first_within rv3d mx my arrows :
  first_within rv3d mx my arrows (hit_scan rv3d mx my 0 arrows).
Proof.
  unfold first_within.
  destruct (hit_scan rv3d mx my 0 arrows) as [k |] eqn:H.
  - destruct (hit_scan_some _ _ _ _ _ _ H) as (j & a & -> & Hn & Ha & Hfirst).
    simpl. split.
    + exists a. split; [exact Hn | apply tip_hit_within, Ha].
    + intros j' b Hj Hb Hw. apply tip_hit_within in Hw.
      rewrite (Hfirst j' b Hj Hb) in Hw. discriminate.
  - intros b Hb Hw. apply tip_hit_within in Hw.
    rewrite (hit_scan_none _ _ _ _ _ H b Hb) in Hw. discriminate.
Qed.

(** ** What an active session keeps *)

Lemma after_timer_self context event w :
  _timer (self (after_timer context event w)) = _timer (self w) /\
  _handle (self (after_timer context event w)) = _handle (self w) /\
  _hover (self (after_timer context event w)) = _hover (self w) /\
  calls (after_timer context event w) = calls w ++ redraw_calls context.
Proof.
  unfold after_timer. cbv zeta.
  destruct (Event.type event =? "TIMER")%string; repeat split.
Qed.

Lemma after_timer_order context event w :
  arrows_in_order (self w) -> arrows_in_order (self (after_timer context event w)).
Proof.
  intros H. unfold after_timer. cbv zeta.
  destruct (Event.type event =? "TIMER")%string; [| exact H].
  unfold arrows_in_order, refreshed, arrows_after. cbn [self _arrows with_arrows].
  destruct (Context.object context) as [obj |]; [| exact H].
  destruct (Context.view context) as [rv3d |]; [apply refreshed_arrows_tags | exact H].
Qed.

Lemma after_move_self context event w :
  _timer (self (after_move context event w)) = _timer (self w) /\
  _handle (self (after_move context event w)) = _handle (self w) /\
  _arrows (self (after_move context event w)) = _arrows (self w) /\
  calls (after_move context event w) = calls w.
Proof.
  unfold after_move.
  destruct (Event.type event =? "MOUSEMOVE")%string, (Context.view context); repeat split.
Qed.

(** A [modal] that keeps the session going has run lines 230-250 and nothing
    else. *)
Lemma modal_continues context event w st w' :
  modal context event w = (Done st, w') ->
  st = RUNNING_MODAL \/ st = PASS_THROUGH ->
  w' = after_timer context event w \/
  w' = after_move context event (after_timer context event w).
Proof.
  rewrite modal_eq. cbv zeta. intros H Hst.
  destruct (timer_raises context event); [discriminate |].
  destruct (pass_through event).
  { injection H as _ <-. left; reflexivity. }
  destruct (move_raises context event); [discriminate |].
  destruct (in_strings (Event.type event) ["RIGHTMOUSE"; "ESC"]%string).
  { injection H as <- _. destruct Hst; discriminate. }
  destruct ((Event.type event =? "LEFTMOUSE") && (Event.value event =? "PRESS"))%string.
  - destruct (_hover _) as [hover |].
    + destruct (nth_error _ hover) as [a |]; [| discriminate].
      destruct (Context.symmetrize_raises _ _ _); [discriminate |].
      injection H as <- _. destruct Hst; discriminate.
    + injection H as _ <-. right; reflexivity.
  - injection H as _ <-. right; reflexivity.
Qed.

Lemma modal_continues_keeps context event w st w' :
  modal context event w = (Done st, w') ->
  st = RUNNING_MODAL \/ st = PASS_THROUGH ->
  _timer (self w') = _timer (self w) /\
  _handle (self w') = _handle (self w) /\
  calls w' = calls w ++ redraw_calls context /\
  (arrows_in_order (self w) -> arrows_in_order (self w')).
Proof.
  intros H Hst.
  destruct (after_timer_self context event w) as (Ht & Hh & _ & Hc).
  destruct (after_move_self context event (after_timer context event w)) as (Ht' & Hh' & Ha' & Hc').
  destruct (modal_continues _ _ _ _ _ H Hst) as [-> | ->].
  - repeat split; try assumption. apply after_timer_order.
  - rewrite Ht', Hh', Hc'. repeat split; try assumption.
    intros Ho. unfold arrows_in_order. rewrite Ha'. apply after_timer_order, Ho.
Qed.

Lemma entry_accepted_object context :
  entry_refused context = false -> exists obj, Context.object context = Some obj.
Proof.
  unfold entry_refused. destruct (Context.object context) as [obj |]; [| discriminate].
  intros _. exists obj. reflexivity.
Qed.

(** [invoke] answers [RUNNING_MODAL] only on its last path. *)
Lemma invoke_running context event w w' :
  invoke context event w = (Done RUNNING_MODAL, w') ->
  entry_refused context = false /\ refresh_raises context = false /\
  w' = handler_added (timer_started context w).
Proof.
  rewrite invoke_eq. cbv zeta.
  destruct (entry_refused context); [discriminate |].
  destruct (refresh_raises context); [discriminate |].
  destruct (Context.area context) as [a |]; [| discriminate].
  destruct (Area.type a =? "VIEW_3D")%string; [| discriminate].
  intros H. injection H as <-. repeat split.
Qed.

Lemma refresh_returns_view context obj :
  Context.object context = Some obj -> refresh_raises context = false ->
  exists rv3d, Context.view context = Some rv3d.
Proof.
  unfold refresh_raises. intros ->.
  destruct (Context.view context) as [rv3d |]; [| discriminate].
  intros _. exists rv3d. reflexivity.
Qed.

Lemma active_keeps w :
  active w ->
  (exists t, _timer (self w) = Some t) /\
  (exists h, _handle (self w) = Some h) /\
  arrows_in_order (self w).
Proof.
  induction 1 as [context event w w' H | context event w w' _ IH H | context event w w' _ IH H].
  - apply invoke_running in H. destruct H as (Hr & Hv & ->).
    destruct (entry_accepted_object _ Hr) as (obj & Ho).
    destruct (refresh_returns_view _ _ Ho Hv) as (rv3d & Hrv).
    repeat split; [eexists; reflexivity | eexists; reflexivity |].
    unfold arrows_in_order, handler_added, timer_started, refreshed, arrows_after.
    cbn [self _arrows with_handle with_timer with_arrows]. rewrite Ho, Hrv.
    apply refreshed_arrows_tags.
  - destruct (modal_continues_keeps _ _ _ _ _ H (or_introl eq_refl)) as (Ht & Hh & _ & Ho).
    rewrite Ht, Hh. destruct IH as (IHt & IHh & IHo). auto.
  - destruct (modal_continues_keeps _ _ _ _ _ H (or_intror eq_refl)) as (Ht & Hh & _ & Ho).
    rewrite Ht, Hh. destruct IH as (IHt & IHh & IHo). auto.
Qed.

(** ** The scene, started *)

Lemma refreshed_arrows_top :
  refreshed_arrows top_view 80 mesh_obj
  = map (built_arrow top_view 80 mesh_obj (Vector2.mk (0 + 400) (0 + 300))) six_directions.
Proof. reflexivity. Qed.

Lemma invoke_top : invoke ctx_top ev_start new_world = (Done RUNNING_MODAL, started_world).
Proof. rewrite invoke_eq. reflexivity. Qed.

Lemma started_world_self :
  self started_world = mkOperator (Some 2%nat) (Some 1%nat) (refreshed_arrows top_view 80 mesh_obj) None.
Proof. reflexivity. Qed.

Lemma started_world_calls :
  calls started_world
  = [ ShaderFromBuiltin "UNIFORM_COLOR"; EventTimerAdd 0.25 1; DrawHandlerAdd 2; ModalHandlerAdd ].
Proof. reflexivity. Qed.

Lemma active_started : active started_world.
Proof. exact (active_invoke _ _ _ _ invoke_top). Qed.

(** The pointer at pixel (480, 300) is on the tip of the X+ arrow. *)
Lemma hit_scan_x_tip :
  hit_scan top_view 480 300 0 (refreshed_arrows top_view 80 mesh_obj) = Some 0%nat.
Proof.
  rewrite refreshed_arrows_top. cbn [map six_directions hit_scan].
  unfold tip_hit. rewrite x_plus_tip.
  cbn [View.location_3d_to_region_2d top_view Vector.x Vector.y Vector2.x Vector2.y].
  destruct (Rle_dec _ _) as [_ | N]; [reflexivity |].
  exfalso. apply N. simpl. lra.
Qed.

Lemma hovering_world_self :
  self hovering_world
  = mkOperator (Some 2%nat) (Some 1%nat) (refreshed_arrows top_view 80 mesh_obj) (Some 0%nat).
Proof.
  change (self hovering_world)
    with (with_hover (self started_world)
            (hit_scan top_view 480 300 0 (refreshed_arrows top_view 80 mesh_obj))).
  rewrite hit_scan_x_tip. reflexivity.
Qed.

Lemma hovering_world_calls :
  calls hovering_world
  = [ ShaderFromBuiltin "UNIFORM_COLOR"; EventTimerAdd 0.25 1; DrawHandlerAdd 2; ModalHandlerAdd;
      TagRedraw ].
Proof. reflexivity. Qed.

Lemma modal_move_top :
  modal ctx_top (ev_move 480 300) started_world = (Done RUNNING_MODAL, hovering_world).
Proof. rewrite modal_eq. reflexivity. Qed.

Lemma active_hovering : active hovering_world.
Proof. exact (active_running _ _ _ _ active_started modal_move_top). Qed.

(** ** The log of a handler and of a session *)

Lemma release_calls_ext o o' :
  _timer o = _timer o' -> _handle o = _handle o' -> release_calls o = release_calls o'.
Proof. intros Ht Hh. unfold release_calls. rewrite Ht, Hh. reflexivity. Qed.

Lemma filter_redraw f context : f TagRedraw = false -> filter f (redraw_calls context) = [].
Proof.
  intros Hf. unfold redraw_calls. destruct (Context.area context); simpl; [rewrite Hf |]; reflexivity.
Qed.

(** The world [modal] works on once lines 230-250 are done. *)
Lemma before_exit_self context event w :
  let w3 := after_move context event (after_timer context event w) in
  _timer (self w3) = _timer (self w) /\
  _handle (self w3) = _handle (self w) /\
  calls w3 = calls w ++ redraw_calls context.
Proof.
  cbv zeta.
  destruct (after_timer_self context event w) as (Ht & Hh & _ & Hc).
  destruct (after_move_self context event (after_timer context event w)) as (Ht' & Hh' & _ & Hc').
  rewrite Ht', Hh', Hc'. auto.
Qed.

(** One call of [modal]: the timer and the handle it holds stay the same
    attributes; it logs releases only when it ends the session, and then
    exactly those of [finish]. *)
Lemma modal_log context event w r w' :
  modal context event w = (r, w') ->
  _timer (self w') = _timer (self w) /\
  _handle (self w') = _handle (self w) /\
  exists new, calls w' = calls w ++ new /\
    forall f, f TagRedraw = false -> (forall d t, f (Symmetrize d t) = false) ->
      filter f new = if ends_session r then filter f (release_calls (self w)) else [].
Proof.
  rewrite modal_eq. cbv zeta. intros H.
  destruct (after_timer_self context event w) as (Ht & Hh & _ & Hc).
  destruct (before_exit_self context event w) as (Ht3 & Hh3 & Hc3). cbv zeta in Ht3, Hh3, Hc3.
  set (w3 := after_move context event (after_timer context event w)) in *.
  assert (Hrel : release_calls (self w3) = release_calls (self w))
    by (apply release_calls_ext; assumption).
  destruct (timer_raises context event).
  { injection H as <- <-. repeat split.
    exists (redraw_calls context). split; [reflexivity |].
    intros f Hf _. apply filter_redraw, Hf. }
  destruct (pass_through event).
  { injection H as <- <-. repeat split; try assumption.
    exists (redraw_calls context). split; [assumption |].
    intros f Hf _. apply filter_redraw, Hf. }
  destruct (move_raises context event).
  { injection H as <- <-. repeat split; try assumption.
    exists (redraw_calls context). split; [assumption |].
    intros f Hf _. apply filter_redraw, Hf. }
  destruct (in_strings (Event.type event) ["RIGHTMOUSE"; "ESC"]%string).
  { injection H as <- <-. unfold finished, logged. cbn [self calls ends_session].
    repeat split; try assumption.
    exists (redraw_calls context ++ release_calls (self w) ++ redraw_calls context).
    split; [rewrite Hc3, Hrel, <- app_assoc; reflexivity |].
    intros f Hf _. rewrite !filter_app, (filter_redraw f context Hf), app_nil_r. reflexivity. }
  assert (Hkeep : forall st, ends_session (Done st) = false ->
            (Done st, w3) = (r, w') ->
            _timer (self w') = _timer (self w) /\
            _handle (self w') = _handle (self w) /\
            exists new, calls w' = calls w ++ new /\
              forall f, f TagRedraw = false -> (forall d t, f (Symmetrize d t) = false) ->
                filter f new = if ends_session r then filter f (release_calls (self w)) else []).
  { intros st Hst E. injection E as <- <-. rewrite Hst. repeat split; try assumption.
    exists (redraw_calls context). split; [assumption |].
    intros f Hf _. apply filter_redraw, Hf. }
  destruct ((Event.type event =? "LEFTMOUSE") && (Event.value event =? "PRESS"))%string;
    [| exact (Hkeep RUNNING_MODAL eq_refl H)].
  destruct (_hover (self w3)) as [hover |]; [| exact (Hkeep RUNNING_MODAL eq_refl H)].
  destruct (nth_error (_arrows (self w3)) hover) as [a |].
  - destruct (Context.symmetrize_raises context (direction_token a) 0.0001).
    + injection H as <- <-. unfold logged. cbn [self calls ends_session].
      repeat split; try assumption.
      exists (redraw_calls context ++ [Symmetrize (direction_token a) 0.0001]).
      split; [rewrite Hc3, <- app_assoc; reflexivity |].
      intros f Hf Hs. rewrite filter_app, (filter_redraw f context Hf). simpl.
      rewrite Hs. reflexivity.
    + injection H as <- <-. unfold finished, logged. cbn [self calls ends_session].
      repeat split; try assumption.
      exists (redraw_calls context ++ [Symmetrize (direction_token a) 0.0001]
              ++ release_calls (self w) ++ redraw_calls context).
      split; [rewrite Hc3, Hrel, <- !app_assoc; reflexivity |].
      intros f Hf Hs. rewrite !filter_app, (filter_redraw f context Hf). simpl.
      rewrite Hs, app_nil_r. reflexivity.
  - injection H as <- <-. cbn [ends_session]. repeat split; try assumption.
    exists (redraw_calls context). split; [assumption |].
    intros f Hf _. apply filter_redraw, Hf.
Qed.

Lemma run_log events : forall w r w',
  run events w = (r, w') ->
  exists new, calls w' = calls w ++ new /\
    forall f, f TagRedraw = false -> (forall d t, f (Symmetrize d t) = false) ->
      filter f new = if ends_session r then filter f (release_calls (self w)) else [].
Proof.
  induction events as [| [context event] rest IH]; intros w r w' H.
  - injection H as <- <-. exists []. split; [rewrite app_nil_r; reflexivity | reflexivity].
  - cbn [run] in H. unfold bind in H.
    destruct (modal context event w) as [r1 w1] eqn:Hm.
    destruct (modal_log _ _ _ _ _ Hm) as (Ht & Hh & new1 & Hc1 & Hf1).
    assert (Hcont : run rest w1 = (r, w') -> ends_session r1 = false ->
              exists new, calls w' = calls w ++ new /\
                forall f, f TagRedraw = false -> (forall d t, f (Symmetrize d t) = false) ->
                  filter f new = if ends_session r then filter f (release_calls (self w)) else []).
    { intros Hr Hend. destruct (IH _ _ _ Hr) as (new2 & Hc2 & Hf2).
      exists (new1 ++ new2). split; [rewrite Hc2, Hc1, app_assoc; reflexivity |].
      intros f Hf Hs. rewrite filter_app, (Hf1 f Hf Hs), Hend, (Hf2 f Hf Hs).
      rewrite (release_calls_ext (self w1) (self w)) by assumption. reflexivity. }
    destruct r1 as [[ | | | ] | e].
    + exact (Hcont H eq_refl).
    + exact (Hcont H eq_refl).
    + injection H as <- <-. exists new1. split; assumption.
    + injection H as <- <-. exists new1. split; assumption.
    + injection H as <- <-. exists new1. split; assumption.
Qed.

(** ** Sessions and their resources *)

(** C1, amended: in every session that [invoke] started and that ended with
    the operator's own answer, [FINISHED] after the mirror operator returned
    or [CANCELLED], the timer and the draw handler that [invoke] acquired
    are each released exactly once, and nothing else is acquired or
    released. *)
Theorem session_releases_once (context : Context.t) (event : Event.t)
  (events : list (Context.t * Event.t)) (w0 w1 w2 : World) (st : Status) :
  invoke context event w0 = (Done RUNNING_MODAL, w1) ->
  run events w1 = (Done st, w2) ->
  st = FINISHED \/ st = CANCELLED ->
  exists t h new,
    _timer (self w1) = Some t /\ _handle (self w1) = Some h /\
    calls w2 = calls w0 ++ new /\
    filter is_timer_call new = [EventTimerAdd 0.25 t; EventTimerRemove t] /\
    filter is_handler_call new = [DrawHandlerAdd h; DrawHandlerRemove h].
Proof.
  intros Hi Hr Hst.
  apply invoke_running in Hi. destruct Hi as (_ & _ & ->).
  destruct (run_log _ _ _ _ Hr) as (new & Hc & Hf).
  assert (Hend : ends_session (Done st) = true) by (destruct Hst; subst; reflexivity).
  set (w1 := timer_started context w0) in *.
  exists (List.length (calls w0 ++ [ShaderFromBuiltin "UNIFORM_COLOR"])),
         (List.length (calls w1)),
         ([ShaderFromBuiltin "UNIFORM_COLOR";
           EventTimerAdd 0.25 (List.length (calls w0 ++ [ShaderFromBuiltin "UNIFORM_COLOR"]));
           DrawHandlerAdd (List.length (calls w1)); ModalHandlerAdd] ++ new).
  split; [reflexivity |]. split; [reflexivity |].
  split.
  - rewrite Hc. unfold handler_added. cbn [calls]. unfold w1, timer_started.
    cbn [calls refreshed logged]. rewrite <- !app_assoc. reflexivity.
  - rewrite !filter_app.
    rewrite (Hf is_timer_call eq_refl (fun _ _ => eq_refl)).
    rewrite (Hf is_handler_call eq_refl (fun _ _ => eq_refl)).
    rewrite Hend. split; reflexivity.
Qed.

(** The gesture is started in the scene and cancelled with escape. *)
Lemma session_releases_once_witness :
  exists t h new,
    _timer (self started_world) = Some t /\ _handle (self started_world) = Some h /\
    calls (snd (run [(ctx_top, ev_esc)] started_world)) = calls new_world ++ new /\
    filter is_timer_call new = [EventTimerAdd 0.25 t; EventTimerRemove t] /\
    filter is_handler_call new = [DrawHandlerAdd h; DrawHandlerRemove h].
Proof.
  apply (session_releases_once ctx_top ev_start [(ctx_top, ev_esc)] new_world started_world
           (snd (run [(ctx_top, ev_esc)] started_world)) CANCELLED).
  - exact invoke_top.
  - cbn [run]. rewrite (bind_done _ _ _ CANCELLED (finished ctx_top (logged started_world [TagRedraw]))).
    + reflexivity.
    + rewrite modal_eq. reflexivity.
  - right; reflexivity.
Defined.

(** C1, against the claim as stated: the pointer is on the X+ arrow, the
    primary button is pressed and the mirror operator raises.  The exception
    leaves [modal] before [finish] is reached: the session is over, the timer
    and the draw handler were acquired, and neither is released. *)
Lemma raising_commit_releases_nothing :
  exists w',
    session ctx_top ev_start
      [(ctx_top, ev_move 480 300); (ctx_top_raising, ev_click 480 300)] new_world
    = (Raised RuntimeError, w') /\
    In (Symmetrize "POSITIVE_X" 0.0001) (calls w') /\
    filter is_timer_call (calls w') = [EventTimerAdd 0.25 1] /\
    filter is_handler_call (calls w') = [DrawHandlerAdd 2] /\
    filter is_release (calls w') = [].
Proof.
  exists (logged hovering_world [TagRedraw; Symmetrize "POSITIVE_X" 0.0001]).
  split.
  - unfold session. rewrite (bind_done _ _ _ _ _ invoke_top).
    cbn [run]. rewrite (bind_done _ _ _ _ _ modal_move_top).
    apply bind_raised.
    rewrite modal_eq. cbv zeta.
    change (after_move ctx_top_raising (ev_click 480 300)
              (after_timer ctx_top_raising (ev_click 480 300) hovering_world))
      with (logged hovering_world [TagRedraw]).
    cbn [pass_through in_strings existsb ev_click Event.type Event.value Event.alt
         String.eqb Ascii.eqb Bool.eqb orb andb].
    cbn [logged self]. rewrite hovering_world_self. cbn [_hover _arrows].
    rewrite refreshed_arrows_top. cbn [map six_directions nth_error].
    reflexivity.
  - unfold logged. cbn [calls]. rewrite hovering_world_calls.
    repeat split; simpl; auto 10.
Qed.

(** ** Entry *)

(** When the test of line 267 refuses the entry, the operator warns and
    leaves: nothing is acquired and no attribute is touched. *)
Lemma invoke_refused context event w :
  entry_refused context = true ->
  invoke context event w
  = (Done CANCELLED, logged w [Report "WARNING" "Edit Mode mesh required"]).
Proof. intros H. rewrite invoke_eq, H. reflexivity. Qed.

(** In an area that is not a 3D view the timer exists by the time the area is
    looked at. *)
Lemma invoke_other_area context event w a :
  entry_refused context = false ->
  refresh_raises context = false ->
  Context.area context = Some a ->
  (Area.type a =? "VIEW_3D")%string = false ->
  invoke context event w
  = (Done CANCELLED, logged (timer_started context w) [Report "WARNING" "View3D area required"]).
Proof.
  intros Hr Hv Ha Ht. rewrite invoke_eq, Hr, Hv. cbv zeta. rewrite Ha, Ht. reflexivity.
Qed.

(** Where the space has no [region_3d] the first refresh raises, before the
    area is looked at. *)
Lemma invoke_no_view context event w :
  entry_refused context = false ->
  refresh_raises context = true ->
  invoke context event w
  = (Raised AttributeError, logged w [ShaderFromBuiltin "UNIFORM_COLOR"]).
Proof. intros Hr Hv. rewrite invoke_eq, Hr, Hv. reflexivity. Qed.

(** C2, on the code: a mesh in edit mode, invoked from an area that is not a
    3D view (an image editor).  The refresh and the timer come before the
    test of the area.  Where the space has no [region_3d], the refresh raises
    and no warning is reported.  Where it has one (the area alone is
    overridden), the operator warns and answers [CANCELLED], but by then it
    has refreshed the arrows and added the timer, which it keeps in
    [self._timer] and never removes. *)
Theorem invoke_outside_view3d_keeps_timer :
  (exists w',
     invoke ctx_image_editor ev_start new_world = (Raised AttributeError, w') /\
     calls w' = [ShaderFromBuiltin "UNIFORM_COLOR"]) /\
  (exists w',
     invoke ctx_area_overridden ev_start new_world = (Done CANCELLED, w') /\
     calls w' = [ ShaderFromBuiltin "UNIFORM_COLOR"; EventTimerAdd 0.25 1;
                  Report "WARNING" "View3D area required" ] /\
     filter is_acquire (calls w') = [EventTimerAdd 0.25 1] /\
     filter is_release (calls w') = [] /\
     _timer (self w') = Some 1%nat /\
     _handle (self w') = None /\
     List.length (_arrows (self w')) = 6%nat).
Proof.
  split.
  - eexists. split.
    + apply (invoke_no_view ctx_image_editor ev_start new_world); reflexivity.
    + reflexivity.
  - eexists. split.
    + apply (invoke_other_area ctx_area_overridden ev_start new_world (Area.mk "IMAGE_EDITOR"));
        reflexivity.
    + repeat split.
Qed.

(** ** The pointer *)

(** C5. A pointer move that is not passed through keeps the session running,
    leaves the arrows as they are and sets the hover to the result of the
    scan: the first arrow, in the order of the list, whose tip projects
    within 20 pixels of the pointer (20 included), or none when no tip is
    that close.  In an active session the list is in the order X+, X-, Y+,
    Y-, Z+, Z- (or empty). *)
Theorem modal_mousemove_hover (context : Context.t) (rv3d : View.t) (event : Event.t)
  (w : World) :
  active w ->
  Context.view context = Some rv3d ->
  Event.type event = "MOUSEMOVE"%string ->
  pass_through event = false ->
  let mx := Event.mouse_region_x event in
  let my := Event.mouse_region_y event in
  exists w',
    modal context event w = (Done RUNNING_MODAL, w') /\
    _arrows (self w') = _arrows (self w) /\
    arrows_in_order (self w) /\
    _hover (self w') = hit_scan rv3d mx my 0 (_arrows (self w)) /\
    first_within rv3d mx my (_arrows (self w)) (_hover (self w')).
Proof.
  intros Ha Hv Ht Hp mx my.
  exists (after_move context event (after_timer context event w)).
  assert (Hh : _hover (self (after_move context event (after_timer context event w)))
               = hit_scan rv3d mx my 0 (_arrows (self w))).
  { unfold after_move, after_timer. rewrite Ht, Hv. reflexivity. }
  split.
  - rewrite modal_eq. cbv zeta. unfold timer_raises, move_raises.
    rewrite Hp, Ht, Hv. reflexivity.
  - split.
    + unfold after_move, after_timer. rewrite Ht, Hv. reflexivity.
    + split; [apply (active_keeps w Ha) |].
      split; [exact Hh |].
      rewrite Hh. apply hit_scan_first_within.
Qed.

(** The pointer moves onto the tip of the X+ arrow: the hover is arrow 0. *)
Lemma modal_mousemove_hover_witness :
  exists w',
    modal ctx_top (ev_move 480 300) started_world = (Done RUNNING_MODAL, w') /\
    _hover (self w') = Some 0%nat.
Proof.
  destruct (modal_mousemove_hover ctx_top top_view (ev_move 480 300) started_world
              active_started eq_refl eq_refl eq_refl) as (w' & Hm & _ & _ & Hh & _).
  exists w'. split; [exact Hm |].
  rewrite Hh. exact hit_scan_x_tip.
Defined.

(** C3, on the code: the pointer moves onto the X+ arrow (hover 0 of six
    arrows); the camera moves away and the next timer tick refreshes the
    list to no arrow at all, leaving the hover at 0; the primary click then
    indexes the empty list and [modal] raises [IndexError]. *)
Theorem stale_hover_index_error :
  exists w2 w3,
    session ctx_top ev_start [(ctx_top, ev_move 480 300); (ctx_away, ev_timer)] new_world
      = (Done RUNNING_MODAL, w2) /\
    _hover (self w2) = Some 0%nat /\
    _arrows (self w2) = [] /\
    nth_error (_arrows (self w2)) 0 = None /\
    modal ctx_away (ev_click 480 300) w2 = (Raised IndexError, w3) /\
    session ctx_top ev_start
      [(ctx_top, ev_move 480 300); (ctx_away, ev_timer); (ctx_away, ev_click 480 300)] new_world
      = (Raised IndexError, w3) /\
    filter is_release (calls w3) = [].
Proof.
  set (w2 := refreshed ctx_away (logged hovering_world [TagRedraw])).
  exists w2, (logged w2 [TagRedraw]).
  assert (Hs : self w2 = mkOperator (Some 2%nat) (Some 1%nat) [] (Some 0%nat)).
  { unfold w2, refreshed, logged. cbn [self]. rewrite hovering_world_self. reflexivity. }
  assert (Htick : modal ctx_away ev_timer hovering_world = (Done RUNNING_MODAL, w2))
    by (apply modal_timer_eq; reflexivity).
  assert (Hclick : modal ctx_away (ev_click 480 300) w2 = (Raised IndexError, logged w2 [TagRedraw])).
  { rewrite modal_eq. cbv zeta.
    change (after_move ctx_away (ev_click 480 300) (after_timer ctx_away (ev_click 480 300) w2))
      with (logged w2 [TagRedraw]).
    cbn [timer_raises move_raises pass_through in_strings existsb ev_click Event.type
         Event.value Event.alt String.eqb Ascii.eqb Bool.eqb orb andb].
    cbn [logged self]. rewrite Hs. reflexivity. }
  split.
  { unfold session. rewrite (bind_done _ _ _ _ _ invoke_top).
    cbn [run]. rewrite (bind_done _ _ _ _ _ modal_move_top).
    rewrite (bind_done _ _ _ _ _ Htick). reflexivity. }
  rewrite Hs. cbn [_hover _arrows nth_error].
  split; [reflexivity |]. split; [reflexivity |]. split; [reflexivity |].
  split; [exact Hclick |].
  split.
  - unfold session. rewrite (bind_done _ _ _ _ _ invoke_top).
    cbn [run]. rewrite (bind_done _ _ _ _ _ modal_move_top).
    rewrite (bind_done _ _ _ _ _ Htick).
    apply (bind_raised _ _ _ _ _ Hclick).
  - reflexivity.
Qed.

(** ** The primary click *)

(** The arrow at position [i] of a refreshed list carries the [i]-th token. *)
Lemma direction_token_in_order o i a :
  arrows_in_order o ->
  nth_error (_arrows o) i = Some a ->
  nth_error direction_tokens i = Some (direction_token a).
Proof.
  intros Ho Hn.
  pose proof (map_nth_error arrow_tag _ _ Hn) as Hm.
  destruct Ho as [He | Hs].
  - rewrite He in Hm. destruct i; discriminate.
  - rewrite Hs in Hm. unfold arrow_tag in Hm. unfold direction_token.
    do 6 (destruct i as [| i];
          [simpl in Hm; injection Hm as Hax Hsg; rewrite <- Hax, <- Hsg; reflexivity |]).
    destruct i; discriminate.
Qed.

Lemma filter_release_calls o : filter is_release (release_calls o) = release_calls o.
Proof. unfold release_calls. destruct (_timer o), (_handle o); reflexivity. Qed.

Lemma filter_symmetrize_release o : filter is_symmetrize_call (release_calls o) = [].
Proof. unfold release_calls. destruct (_timer o), (_handle o); reflexivity. Qed.

Lemma modal_click_eq context event w :
  Event.type event = "LEFTMOUSE"%string ->
  Event.value event = "PRESS"%string ->
  modal context event w =
    let w3 := logged w (redraw_calls context) in
    match _hover (self w) with
    | None => (Done RUNNING_MODAL, w3)
    | Some hover =>
        match nth_error (_arrows (self w)) hover with
        | None => (Raised IndexError, w3)
        | Some a =>
            let w4 := logged w3 [Symmetrize (direction_token a) 0.0001] in
            if Context.symmetrize_raises context (direction_token a) 0.0001
            then (Raised RuntimeError, w4)
            else (Done FINISHED, finished context w4)
        end
    end.
Proof.
  intros Ht Hv.
  assert (Hw3 : after_move context event (after_timer context event w)
                = logged w (redraw_calls context)).
  { unfold after_move, after_timer. rewrite Ht. reflexivity. }
  assert (Hp : pass_through event = false) by (unfold pass_through; rewrite Ht; reflexivity).
  assert (Htr : timer_raises context event = false)
    by (unfold timer_raises; rewrite Ht; reflexivity).
  assert (Hmr : move_raises context event = false)
    by (unfold move_raises; rewrite Ht; reflexivity).
  rewrite modal_eq. cbv zeta. rewrite Htr, Hp, Hmr, Hw3, Ht, Hv. reflexivity.
Qed.

(** C6, against the claim as stated: the pointer is on the X+ arrow (hover 0,
    the first of six arrows), the primary button is pressed, and the mirror
    operator, called once with POSITIVE_X and 0.0001, raises.  [modal] raises
    with it: the answer is not [FINISHED], and nothing is released. *)
Lemma raising_click_is_not_committed :
  _hover (self hovering_world) = Some 0%nat /\
  (exists a, nth_error (_arrows (self hovering_world)) 0 = Some a /\
     arrow_tag a = ("X"%string, 1%Z)) /\
  exists w',
    modal ctx_top_raising (ev_click 480 300) hovering_world = (Raised RuntimeError, w') /\
    fst (modal ctx_top_raising (ev_click 480 300) hovering_world) <> Done FINISHED /\
    filter is_symmetrize_call (calls w') = [Symmetrize "POSITIVE_X" 0.0001] /\
    filter is_release (calls w') = [].
Proof.
  rewrite hovering_world_self. cbn [_hover _arrows].
  split; [reflexivity |].
  split; [rewrite refreshed_arrows_top; eexists; split; reflexivity |].
  exists (logged hovering_world [TagRedraw; Symmetrize "POSITIVE_X" 0.0001]).
  assert (Hm : modal ctx_top_raising (ev_click 480 300) hovering_world
               = (Raised RuntimeError,
                  logged hovering_world [TagRedraw; Symmetrize "POSITIVE_X" 0.0001])).
  { rewrite (modal_click_eq ctx_top_raising (ev_click 480 300) hovering_world eq_refl eq_refl).
    cbv zeta. rewrite hovering_world_self. cbn [_hover _arrows].
    rewrite refreshed_arrows_top. cbn [map six_directions nth_error].
    reflexivity. }
  rewrite Hm. split; [reflexivity |]. split; [discriminate |].
  unfold logged. cbn [calls]. rewrite hovering_world_calls. split; reflexivity.
Qed.

(** C6, amended.  A press of the primary button in an active session.  When
    the hover is the index of an arrow of the list, the mirror operator is
    called exactly once, with the token of that arrow (the token at the
    arrow's place among POSITIVE_X, NEGATIVE_X, POSITIVE_Y, NEGATIVE_Y,
    POSITIVE_Z, NEGATIVE_Z, made of its sign and its axis) and the threshold
    0.0001; when the call returns, the timer and the handler are released
    and the answer is [FINISHED]; when it raises, [modal] raises with it and
    releases nothing.  When the hover is none, nothing happens beyond the
    redraw request and the answer is [RUNNING_MODAL]. *)
Theorem modal_primary_click (context : Context.t) (event : Event.t) (w : World) :
  active w ->
  Event.type event = "LEFTMOUSE"%string ->
  Event.value event = "PRESS"%string ->
  (_hover (self w) = None ->
     modal context event w = (Done RUNNING_MODAL, logged w (redraw_calls context))) /\
  (forall i a,
     _hover (self w) = Some i ->
     nth_error (_arrows (self w)) i = Some a ->
     let raises := Context.symmetrize_raises context (direction_token a) 0.0001 in
     direction_token a
       = ((if (sign a >? 0)%Z then "POSITIVE" else "NEGATIVE") ++ "_" ++ axis a)%string /\
     nth_error direction_tokens i = Some (direction_token a) /\
     exists t h new,
       _timer (self w) = Some t /\ _handle (self w) = Some h /\
       filter is_symmetrize_call new = [Symmetrize (direction_token a) 0.0001] /\
       modal context event w
       = (if raises then Raised RuntimeError else Done FINISHED, logged w new) /\
       filter is_release new
       = (if raises then [] else [EventTimerRemove t; DrawHandlerRemove h])).
Proof.
  intros Ha Ht Hv.
  destruct (active_keeps w Ha) as ((t & Htm) & (h & Hhd) & Ho).
  pose proof (modal_click_eq context event w Ht Hv) as Hm. cbv zeta in Hm.
  split.
  - intros Hh. rewrite Hh in Hm. exact Hm.
  - intros i a Hh Hn raises. rewrite Hh, Hn in Hm.
    split; [reflexivity |].
    split; [exact (direction_token_in_order _ _ _ Ho Hn) |].
    exists t, h. unfold raises.
    destruct (Context.symmetrize_raises context (direction_token a) 0.0001).
    + exists (redraw_calls context ++ [Symmetrize (direction_token a) 0.0001]).
      split; [exact Htm |]. split; [exact Hhd |].
      split; [rewrite filter_app, filter_redraw by reflexivity; reflexivity |].
      split.
      * rewrite Hm. unfold logged. cbn [self calls]. rewrite <- app_assoc. reflexivity.
      * rewrite filter_app, filter_redraw by reflexivity. reflexivity.
    + exists (redraw_calls context ++ [Symmetrize (direction_token a) 0.0001]
              ++ release_calls (self w) ++ redraw_calls context).
      split; [exact Htm |]. split; [exact Hhd |].
      split.
      { rewrite !filter_app, filter_redraw, filter_symmetrize_release by reflexivity.
        reflexivity. }
      split.
      * rewrite Hm. unfold finished, logged. cbn [self calls].
        rewrite <- !app_assoc. reflexivity.
      * rewrite !filter_app, filter_redraw, filter_release_calls by reflexivity.
        unfold release_calls. rewrite Htm, Hhd. reflexivity.
Qed.

(** The click on the hovered X+ arrow mirrors along POSITIVE_X and finishes. *)
Lemma modal_primary_click_witness :
  exists w',
    modal ctx_top (ev_click 480 300) hovering_world = (Done FINISHED, w') /\
    filter is_symmetrize_call (calls w') = [Symmetrize "POSITIVE_X" 0.0001] /\
    filter is_release (calls w') = [EventTimerRemove 1; DrawHandlerRemove 2].
Proof.
  destruct (modal_primary_click ctx_top (ev_click 480 300) hovering_world
              active_hovering eq_refl eq_refl) as (_ & H).
  assert (Hh : _hover (self hovering_world) = Some 0%nat)
    by (rewrite hovering_world_self; reflexivity).
  assert (Hn : nth_error (_arrows (self hovering_world)) 0
               = Some (built_arrow top_view 80 mesh_obj (Vector2.mk (0 + 400) (0 + 300))
                         ("X"%string, 1%Z)))
    by (rewrite hovering_world_self; reflexivity).
  destruct (H _ _ Hh Hn) as (_ & _ & t & h & new & Ht & Hd & Hs & Hm & Hr).
  rewrite hovering_world_self in Ht, Hd. cbn [_timer _handle] in Ht, Hd.
  injection Ht as <-. injection Hd as <-.
  exists (logged hovering_world new). split; [exact Hm |].
  unfold logged. cbn [calls]. rewrite hovering_world_calls, !filter_app, Hs, Hr.
  split; reflexivity.
Defined.

(** ** More on the arrow geometry *)

Section ArrowShape.

Import Vector.

Ltac vec_eq := unfold add, sub, scale, cross, dot; simpl; f_equal; ring.

Lemma length_zero_components v : length v = 0 -> x v = 0 /\ y v = 0 /\ z v = 0.
Proof.
  intros E. apply sqrt_eq_0 in E; [| apply dot_self_nonneg].
  destruct v as [a b c]. unfold dot in E; simpl in *.
  repeat split; nra.
Qed.

Lemma normalized_scale_pos d k : 0 < k -> normalized (scale d k) = normalized d.
Proof.
  intros Hk. rewrite !normalized_scale, length_scale by lra.
  destruct (Req_dec_T (length d) 0) as [E | NE].
  - destruct (length_zero_components d E) as (Hx & Hy & Hz).
    destruct d as [a b c]; simpl in *. subst. unfold scale; simpl. f_equal; ring.
  - destruct d as [a b c]. unfold scale; simpl. f_equal; field; split; lra.
Qed.

(** X1. Only the direction of [direction] matters, not its magnitude:
    stretching it by a positive factor gives the same arrow. *)
Theorem make_solid_arrow_scale (base direction : Vector.t) (len k : R) :
  0 < k ->
  make_solid_arrow base (direction * k) len = make_solid_arrow base direction len.
Proof.
  intros Hk. unfold make_solid_arrow. rewrite normalized_scale_pos by exact Hk. reflexivity.
Qed.

Lemma make_solid_arrow_scale_witness :
  make_solid_arrow (mk 0 0 0) (mk 1 2 3 * 5) 80 = make_solid_arrow (mk 0 0 0) (mk 1 2 3) 80.
Proof. apply (make_solid_arrow_scale (mk 0 0 0) (mk 1 2 3) 80 5). lra. Defined.

(** X2. For a direction that has a length, the tip lies at distance
    |length| from the base, and the shaft point lies on the way to it, at
    three quarters of that distance. *)
Theorem make_solid_arrow_span (base direction : Vector.t) (len : R) :
  length direction <> 0 ->
  let points := fst (make_solid_arrow base direction len) in
  let tip := snd (make_solid_arrow base direction len) in
  length (tip - base) = Rabs len /\
  exists shaft_mid,
    nth_error points 1 = Some shaft_mid /\
    (shaft_mid - base)%vec = ((tip - base) * 0.75)%vec /\
    length (shaft_mid - base) = 0.75 * Rabs len.
Proof.
  intros Hd points tip. unfold points, tip, make_solid_arrow. cbn [fst snd nth_error].
  set (dn := normalized direction).
  assert (Hn : length dn = 1) by (apply normalized_length, Hd).
  assert (Ht : ((base + dn * len) - base)%vec = (dn * len)%vec) by vec_eq.
  assert (Hm : ((base + dn * (len * 0.75)) - base)%vec = (dn * (len * 0.75))%vec) by vec_eq.
  split.
  - rewrite Ht, length_scale_abs, Hn. ring.
  - eexists. split; [reflexivity |]. split.
    + rewrite Ht, Hm. vec_eq.
    + rewrite Hm, length_scale_abs, Hn, Rabs_mult, (Rabs_right 0.75) by lra. ring.
Qed.

Lemma length_1_2_2 : length (mk 1 2 2) = 3.
Proof.
  unfold length, dot; simpl.
  replace (1 * 1 + 2 * 2 + 2 * 2) with (3 * 3) by ring.
  apply sqrt_square. lra.
Qed.

Lemma make_solid_arrow_span_witness :
  length (snd (make_solid_arrow (mk 0 0 0) (mk 1 2 2) 80) - mk 0 0 0) = Rabs 80.
Proof.
  apply (make_solid_arrow_span (mk 0 0 0) (mk 1 2 2) 80).
  rewrite length_1_2_2. lra.
Defined.

(** X3. For a direction of length zero the arrow collapses onto its base:
    the tip, the shaft point and the second pair of wings are the base. *)
Theorem make_solid_arrow_collapses (base direction : Vector.t) (len : R) :
  length direction = 0 ->
  let points := fst (make_solid_arrow base direction len) in
  snd (make_solid_arrow base direction len) = base /\
  nth_error points 1 = Some base /\
  nth_error points 2 = Some base /\
  nth_error points 7 = Some base /\
  nth_error points 9 = Some base.
Proof.
  intros Hd points. unfold points, make_solid_arrow. cbn [fst snd nth_error].
  rewrite (normalized_zero_length direction Hd).
  destruct (length_zero_components direction Hd) as (Hx & Hy & Hz).
  assert (Hs2 : side2_vector direction = mk 0 0 0).
  { unfold side2_vector, side2_reference.
    replace (cross direction (side_vector direction)) with (mk 0 0 0).
    - apply normalized_zero.
    - destruct direction as [a b c]; simpl in *. subst. unfold cross; simpl. f_equal; ring. }
  rewrite Hs2.
  assert (Hb : forall k, (base + direction * k)%vec = base).
  { intros k. destruct direction as [a b c], base as [p q r]; simpl in *. subst. vec_eq. }
  rewrite !Hb.
  assert (Hz1 : forall k, (base + mk 0 0 0 * k)%vec = base)
    by (intros k; destruct base; vec_eq).
  assert (Hz2 : forall k, (base - mk 0 0 0 * k)%vec = base)
    by (intros k; destruct base; vec_eq).
  rewrite Hz1, Hz2. repeat split.
Qed.

Lemma make_solid_arrow_collapses_witness :
  snd (make_solid_arrow (mk 1 2 3) (mk 0 0 0) 80) = mk 1 2 3.
Proof.
  apply (make_solid_arrow_collapses (mk 1 2 3) (mk 0 0 0) 80). exact length_zero.
Defined.

Lemma side2_vector_length direction :
  length direction <> 0 -> length (side2_vector (normalized direction)) = 1.
Proof.
  intros Hd. unfold side2_vector. apply normalized_length, side2_reference_length, Hd.
Qed.

Lemma side2_perpendicular dn :
  dot (side2_vector dn) dn = 0 /\ dot (side2_vector dn) (side_vector dn) = 0.
Proof.
  unfold side2_vector, side2_reference.
  rewrite !dot_normalized_l, cross_dot_left, cross_dot_right. split; ring.
Qed.

(** X4. For a direction that has a length the head is a cross: the four
    wing points lie at 0.12 |length| from the shaft point, and the second
    pair of wings is perpendicular both to the shaft and to the first
    pair. *)
Theorem make_solid_arrow_head (base direction : Vector.t) (len : R) :
  length direction <> 0 ->
  let points := fst (make_solid_arrow base direction len) in
  let tip := snd (make_solid_arrow base direction len) in
  exists shaft_mid w1 w2 w3 w4,
    nth_error points 1 = Some shaft_mid /\
    nth_error points 3 = Some w1 /\ nth_error points 5 = Some w2 /\
    nth_error points 7 = Some w3 /\ nth_error points 9 = Some w4 /\
    length (w1 - shaft_mid) = 0.12 * Rabs len /\
    length (w2 - shaft_mid) = 0.12 * Rabs len /\
    length (w3 - shaft_mid) = 0.12 * Rabs len /\
    length (w4 - shaft_mid) = 0.12 * Rabs len /\
    (w2 - shaft_mid)%vec = ((w1 - shaft_mid) * (-1))%vec /\
    (w4 - shaft_mid)%vec = ((w3 - shaft_mid) * (-1))%vec /\
    dot (w3 - shaft_mid) (tip - base) = 0 /\
    dot (w3 - shaft_mid) (w1 - shaft_mid) = 0.
Proof.
  intros Hd points tip. unfold points, tip, make_solid_arrow. cbn [fst snd nth_error].
  set (dn := normalized direction).
  set (mid := (base + dn * (len * 0.75))%vec).
  set (s1 := side_vector dn). set (s2 := side2_vector dn).
  set (hw := len * 0.12).
  assert (H1 : length s1 = 1) by apply side_vector_length.
  assert (H2 : length s2 = 1) by (apply side2_vector_length, Hd).
  destruct (side2_perpendicular dn) as (Hpd & Hps). fold s1 s2 in Hpd, Hps.
  assert (Ep : forall s, ((mid + s * hw) - mid)%vec = (s * hw)%vec) by (intros s; vec_eq).
  assert (Em : forall s, ((mid - s * hw) - mid)%vec = (s * (- hw))%vec) by (intros s; vec_eq).
  assert (Hw : Rabs hw = 0.12 * Rabs len).
  { unfold hw. rewrite Rabs_mult, (Rabs_right 0.12) by lra. ring. }
  exists mid, (mid + s1 * hw)%vec, (mid - s1 * hw)%vec, (mid + s2 * hw)%vec, (mid - s2 * hw)%vec.
  rewrite !Ep, !Em, !length_scale_abs, Rabs_Ropp, H1, H2, Hw.
  repeat split; try ring; try vec_eq.
  - replace ((base + dn * len) - base)%vec with (dn * len)%vec by vec_eq.
    rewrite dot_scale_l, dot_scale_r, Hpd. ring.
  - rewrite dot_scale_l, dot_scale_r, Hps. ring.
Qed.

Lemma make_solid_arrow_head_witness :
  exists shaft_mid w3,
    nth_error (fst (make_solid_arrow (mk 0 0 0) (mk 1 2 2) 80)) 1 = Some shaft_mid /\
    nth_error (fst (make_solid_arrow (mk 0 0 0) (mk 1 2 2) 80)) 7 = Some w3 /\
    length (w3 - shaft_mid) = 0.12 * Rabs 80.
Proof.
  assert (Hd : length (mk 1 2 2) <> 0) by (rewrite length_1_2_2; lra).
  destruct (make_solid_arrow_head (mk 0 0 0) (mk 1 2 2) 80 Hd)
    as (m & w1 & w2 & w3 & w4 & Hm & _ & _ & H3 & _ & _ & _ & L3 & _).
  exists m, w3. repeat split; assumption.
Defined.

(** C8, against the claim as stated: for the direction (0, 0, 0) the second
    pair of wing points lies on the shaft point itself (here the base): its
    half-width is 0, not 0.12 * length. *)
Lemma zero_direction_second_wings_collapse :
  nth_error (fst (make_solid_arrow (mk 0 0 0) (mk 0 0 0) 80)) 1 = Some (mk 0 0 0) /\
  nth_error (fst (make_solid_arrow (mk 0 0 0) (mk 0 0 0) 80)) 7 = Some (mk 0 0 0) /\
  nth_error (fst (make_solid_arrow (mk 0 0 0) (mk 0 0 0) 80)) 9 = Some (mk 0 0 0) /\
  length (mk 0 0 0 - mk 0 0 0) = 0 /\
  length (mk 0 0 0 - mk 0 0 0) <> 0.12 * 80.
Proof.
  assert (Hs2 : side2_vector (mk 0 0 0) = mk 0 0 0).
  { pose proof (side2_reference_zero (mk 0 0 0) length_zero) as H.
    rewrite normalized_origin in H. unfold side2_vector. rewrite H. apply normalized_origin. }
  assert (Hl : length (mk 0 0 0 - mk 0 0 0) = 0).
  { replace (mk 0 0 0 - mk 0 0 0)%vec with (mk 0 0 0) by vec_eq. apply length_zero. }
  unfold make_solid_arrow. cbn [fst nth_error]. rewrite normalized_origin, Hs2, Hl.
  replace (mk 0 0 0 + mk 0 0 0 * (80 * 0.75))%vec with (mk 0 0 0) by vec_eq.
  replace (mk 0 0 0 + mk 0 0 0 * (80 * 0.12))%vec with (mk 0 0 0) by vec_eq.
  replace (mk 0 0 0 - mk 0 0 0 * (80 * 0.12))%vec with (mk 0 0 0) by vec_eq.
  repeat split. lra.
Qed.

(** C8, amended.  For every base, direction and length: the tip is the base
    plus the normalized direction times the length; the polyline starts at
    the base and passes the shaft point at 0.75 of the length; each of the
    four wing points is next to the tip in the polyline (the points 2, 4, 6
    and 8 are the tip).  The first pair of wings lies opposite each other at
    0.12 |length| from the shaft point.  The second pair lies opposite each
    other, perpendicular to the shaft and to the first pair, and for a
    direction that has a length also at 0.12 |length| from the shaft point;
    for a direction of length zero it lies on the shaft point. *)
Theorem make_solid_arrow_shape (base direction : Vector.t) (len : R) :
  let dir_n := normalized direction in
  let tip := (base + dir_n * len)%vec in
  let shaft_mid := (base + dir_n * (0.75 * len))%vec in
  let head_w := 0.12 * len in
  let points := fst (make_solid_arrow base direction len) in
  snd (make_solid_arrow base direction len) = tip /\
  exists w1 w2 w3 w4,
    points = [base; shaft_mid; tip; w1; tip; w2; tip; w3; tip; w4] /\
    hd_error points = Some base /\
    w1 = (shaft_mid + side_vector dir_n * head_w)%vec /\
    w2 = (shaft_mid - side_vector dir_n * head_w)%vec /\
    w3 = (shaft_mid + side2_vector dir_n * head_w)%vec /\
    w4 = (shaft_mid - side2_vector dir_n * head_w)%vec /\
    length (w1 - shaft_mid) = 0.12 * Rabs len /\
    length (w2 - shaft_mid) = 0.12 * Rabs len /\
    (w2 - shaft_mid)%vec = ((w1 - shaft_mid) * (-1))%vec /\
    (w4 - shaft_mid)%vec = ((w3 - shaft_mid) * (-1))%vec /\
    dot (w3 - shaft_mid) (tip - base) = 0 /\
    dot (w3 - shaft_mid) (w1 - shaft_mid) = 0 /\
    (length direction <> 0 ->
       length (w3 - shaft_mid) = 0.12 * Rabs len /\
       length (w4 - shaft_mid) = 0.12 * Rabs len) /\
    (length direction = 0 -> w3 = shaft_mid /\ w4 = shaft_mid).
Proof.
  intros dir_n tip mid head_w points.
  set (s1 := side_vector dir_n). set (s2 := side2_vector dir_n).
  assert (Hp : points = [base; mid; tip; (mid + s1 * head_w)%vec; tip;
                         (mid - s1 * head_w)%vec; tip; (mid + s2 * head_w)%vec; tip;
                         (mid - s2 * head_w)%vec]).
  { unfold points, make_solid_arrow. cbn [fst].
    fold dir_n. fold s1. fold s2. fold tip.
    replace (len * 0.75) with (0.75 * len) by ring.
    replace (len * 0.12) with (0.12 * len) by ring.
    reflexivity. }
  split; [reflexivity |].
  exists (mid + s1 * head_w)%vec, (mid - s1 * head_w)%vec,
         (mid + s2 * head_w)%vec, (mid - s2 * head_w)%vec.
  split; [exact Hp |]. split; [rewrite Hp; reflexivity |].
  do 4 (split; [reflexivity |]).
  assert (H1 : length s1 = 1) by apply side_vector_length.
  destruct (side2_perpendicular dir_n) as (Hpd & Hps). fold s1 s2 in Hpd, Hps.
  assert (Ep : forall s, ((mid + s * head_w) - mid)%vec = (s * head_w)%vec) by (intros s; vec_eq).
  assert (Em : forall s, ((mid - s * head_w) - mid)%vec = (s * (- head_w))%vec)
    by (intros s; vec_eq).
  assert (Hw : Rabs head_w = 0.12 * Rabs len).
  { unfold head_w. rewrite Rabs_mult, (Rabs_right 0.12) by lra. ring. }
  rewrite !Ep, !Em, !length_scale_abs, Rabs_Ropp, H1, Hw.
  split; [ring |]. split; [ring |]. split; [vec_eq |]. split; [vec_eq |].
  split.
  { replace (tip - base)%vec with (dir_n * len)%vec by (unfold tip; vec_eq).
    rewrite dot_scale_l, dot_scale_r, Hpd. ring. }
  split; [rewrite dot_scale_l, dot_scale_r, Hps; ring |].
  split.
  - intros Hd. unfold s2, dir_n. rewrite (side2_vector_length direction Hd). split; ring.
  - intros Hd.
    assert (Hz : s2 = mk 0 0 0).
    { unfold s2, dir_n, side2_vector. rewrite (side2_reference_zero direction Hd).
      apply normalized_origin. }
    rewrite Hz. destruct mid as [p q r]. split; vec_eq.
Qed.

(** The arrow along (1, 2, 2): its second pair of wings at 0.12 * 80. *)
Lemma make_solid_arrow_shape_witness :
  exists w3,
    nth_error (fst (make_solid_arrow (mk 0 0 0) (mk 1 2 2) 80)) 7 = Some w3 /\
    length (w3 - (mk 0 0 0 + normalized (mk 1 2 2) * (0.75 * 80))) = 0.12 * Rabs 80.
Proof.
  destruct (make_solid_arrow_shape (mk 0 0 0) (mk 1 2 2) 80)
    as (_ & w1 & w2 & w3 & w4 & Hp & _ & _ & _ & _ & _ & _ & _ & _ & _ & _ & _ & Hl & _).
  exists w3. split; [rewrite Hp; reflexivity |].
  apply Hl. rewrite length_1_2_2. lra.
Defined.

End ArrowShape.

(** ** More on the guard and the refresh *)

Section RefreshFacts.

Import Vector.





(** The guard never turns a direction that has a length into one that has
    none. *)
Lemma tilt_direction_has_length view_dir dir_ws :
  length dir_ws <> 0 -> length (tilt_direction view_dir dir_ws) <> 0.
Proof.
  intros Hd. unfold tilt_direction.
  destruct (Rlt_dec 0.96 _) as [_ | _]; [| exact Hd].
  set (tilt := (normalized (cross view_dir dir_ws) * 0.1)%vec).
  assert (Hpos : 0 < dot dir_ws dir_ws).
  { pose proof (length_sqr dir_ws). pose proof (length_nonneg dir_ws). nra. }
  assert (Hs : length (dir_ws + tilt) <> 0).
  { destruct (Req_dec_T (length (cross view_dir dir_ws)) 0) as [E | NE].
    - unfold tilt. rewrite (normalized_zero_length _ E).
      destruct (length_zero_components _ E) as (Hx & Hy & Hz).
      replace (dir_ws + cross view_dir dir_ws * 0.1)%vec with dir_ws; [exact Hd |].
      destruct dir_ws as [a b c]. unfold add, scale. rewrite Hx, Hy, Hz. simpl. f_equal; ring.
    - pose proof (tilted_sqr view_dir dir_ws NE) as H. cbv zeta in H. fold tilt in H.
      intros E. apply sqrt_eq_0 in E; [| apply dot_self_nonneg]. lra. }
  rewrite (normalized_length _ Hs). lra.
Qed.

Lemma length_scale_sign v (sign : Z) :
  sign = 1%Z \/ sign = (-1)%Z -> length (v * IZR sign) = length v.
Proof.
  intros [-> | ->]; rewrite length_scale_abs.
  - rewrite Rabs_R1. ring.
  - replace (IZR (-1)) with (- (1)) by lra. rewrite Rabs_Ropp, Rabs_R1. ring.
Qed.

Lemma six_directions_sign tag :
  In tag six_directions -> snd tag = 1%Z \/ snd tag = (-1)%Z.
Proof.
  unfold six_directions. simpl.
  intros H. repeat (destruct H as [<- | H]; [simpl; auto |]). contradiction.
Qed.

(** X6. All the arrows of a refresh start at the origin of the object and,
    for an object none of whose axes is squashed to zero, have the same
    length in the world: the distance from the origin to the point that is
    [arrow_size] pixels to its right on screen. *)
Theorem update_arrows_equal_length (context : Context.t) (obj : Object.t) (rv3d : View.t)
  (p_origin_2d : Vector2.t) (w : World) (a : Arrow) :
  Context.object context = Some obj ->
  Context.view context = Some rv3d ->
  View.location_3d_to_region_2d rv3d (Matrix.translation (Object.matrix_world obj))
    = Some p_origin_2d ->
  (forall axis_name, length (axis_vector obj axis_name) <> 0) ->
  In a (_arrows (self (snd (update_arrows context w)))) ->
  let origin := Matrix.translation (Object.matrix_world obj) in
  let offset_2d := Vector2.add p_origin_2d (Vector2.mk (Context.arrow_size context) 0) in
  hd_error (points a) = Some origin /\
  length (tip a - origin)
  = length (View.region_2d_to_location_3d rv3d offset_2d origin - origin).
Proof.
  intros Ho Hv Hp Hax Ha origin offset_2d.
  rewrite (update_arrows_object _ _ _ _ Ho Hv) in Ha. cbn [snd self _arrows with_arrows] in Ha.
  unfold refreshed_arrows in Ha. rewrite Hp in Ha.
  apply in_map_iff in Ha. destruct Ha as ([axis_name sign] & <- & Htag).
  apply six_directions_sign in Htag. cbn [snd] in Htag.
  unfold built_arrow. cbn [points tip]. fold origin. fold offset_2d.
  set (len := length (View.region_2d_to_location_3d rv3d offset_2d origin - origin)).
  set (dir_ws := tilt_direction _ _).
  assert (Hd : length dir_ws <> 0).
  { apply tilt_direction_has_length. rewrite (length_scale_sign _ _ Htag). apply Hax. }
  split; [reflexivity |].
  unfold make_solid_arrow. cbn [snd].
  replace ((origin + normalized dir_ws * len) - origin)%vec with (normalized dir_ws * len)%vec
    by (unfold add, sub, scale; simpl; f_equal; ring).
  rewrite length_scale_abs, (normalized_length _ Hd), Rabs_right.
  - ring.
  - apply Rle_ge, length_nonneg.
Qed.

Lemma mesh_obj_axes axis_name : length (axis_vector mesh_obj axis_name) <> 0.
Proof.
  unfold axis_vector, mesh_obj. cbn [Object.matrix_world].
  destruct (axis_name =? "X")%string; [| destruct (axis_name =? "Y")%string].
  - replace (Matrix.to_3x3_mul _ (mk 1 0 0)) with (mk 1 0 0)
      by (unfold Matrix.to_3x3_mul, dot; simpl; f_equal; ring).
    rewrite length_unit_x. lra.
  - replace (Matrix.to_3x3_mul _ (mk 0 1 0)) with (mk 0 1 0)
      by (unfold Matrix.to_3x3_mul, dot; simpl; f_equal; ring).
    rewrite length_unit_y. lra.
  - replace (Matrix.to_3x3_mul _ (mk 0 0 1)) with (mk 0 0 1)
      by (unfold Matrix.to_3x3_mul, dot; simpl; f_equal; ring).
    rewrite length_unit_z. lra.
Qed.

(** The Y- arrow of the scene is as long as the others: 80 world units. *)
Lemma update_arrows_equal_length_witness :
  length (tip (built_arrow top_view 80 mesh_obj (Vector2.mk (0 + 400) (0 + 300))
                 ("Y"%string, (-1)%Z))
          - Matrix.translation (Object.matrix_world mesh_obj))
  = length (View.region_2d_to_location_3d top_view
              (Vector2.add (Vector2.mk (0 + 400) (0 + 300))
                 (Vector2.mk (Context.arrow_size ctx_top) 0))
              (Matrix.translation (Object.matrix_world mesh_obj))
            - Matrix.translation (Object.matrix_world mesh_obj)).
Proof.
  apply (update_arrows_equal_length ctx_top mesh_obj top_view (Vector2.mk (0 + 400) (0 + 300))
           new_world _ eq_refl eq_refl eq_refl mesh_obj_axes).
  rewrite update_arrows_eq. cbn [refresh_raises ctx_top scene Context.object Context.view snd].
  unfold refreshed, arrows_after. cbn [ctx_top scene Context.object Context.view
    Context.arrow_size self _arrows with_arrows].
  rewrite refreshed_arrows_top. cbn [map six_directions].
  right. right. right. left. reflexivity.
Defined.

End RefreshFacts.

(** ** More on the refresh, the draw callback and the handlers *)

(** X7. A refresh asks nothing of the host and touches only the arrows: the
    log, the timer, the handle and the hover are as before.  Refreshing
    again in the same context changes nothing more. *)
Theorem update_arrows_frame (context : Context.t) (w : World) :
  let w' := snd (update_arrows context w) in
  calls w' = calls w /\
  _timer (self w') = _timer (self w) /\
  _handle (self w') = _handle (self w) /\
  _hover (self w') = _hover (self w) /\
  update_arrows context w' = (fst (update_arrows context w), w').
Proof.
  cbv zeta. pose proof (update_arrows_eq context w) as E.
  destruct (refresh_raises context) eqn:Hr; rewrite E; cbn [fst snd].
  - repeat split. rewrite update_arrows_eq, Hr. reflexivity.
  - repeat split. rewrite update_arrows_eq, Hr. f_equal.
    unfold refreshed, arrows_after. cbn [self calls with_arrows _handle _timer _hover _arrows].
    destruct (Context.object context), (Context.view context); reflexivity.
Qed.

Lemma for_each_host l : forall w, for_each l host w = (Done tt, logged w l).
Proof.
  induction l as [| c l IH]; intros w.
  - rewrite logged_nil. reflexivity.
  - cbn [for_each]. rewrite (bind_done _ _ _ _ _ (host_eq c w)), IH, logged_logged. reflexivity.
Qed.

Lemma draw_arrows_length hover arrows : forall i0,
  List.length (draw_arrows hover i0 arrows) = List.length arrows.
Proof. induction arrows as [| a rest IH]; intros i0; simpl; [| rewrite IH]; reflexivity. Qed.

Lemma draw_arrows_nth hover arrows : forall i0 i a,
  nth_error arrows i = Some a ->
  nth_error (draw_arrows hover i0 arrows) i
  = Some (BatchDraw match hover with
                    | Some h => if Nat.eqb (i0 + i) h then (1, 1, 0, 1) else color a
                    | None => color a
                    end (points a)).
Proof.
  induction arrows as [| b rest IH]; intros i0 [| i] a H; simpl in H; try discriminate.
  - injection H as <-. simpl. rewrite Nat.add_0_r. reflexivity.
  - simpl. rewrite (IH (S i0) i a H). rewrite Nat.add_succ_r. reflexivity.
Qed.

(** X8. The draw callback leaves the operator alone and asks the host for
    alpha blending, then one line strip per arrow, in the order of the list
    and with the points of the arrow, then no blending.  The strip of the
    hovered arrow is yellow, every other strip has the colour of its arrow;
    a hover that is no index of the list colours nothing yellow. *)
Theorem draw_callback_draws (context : Context.t) (w : World) :
  let o := self w in
  draw_callback context w = (Done tt, logged w (draw_commands o)) /\
  List.length (draw_commands o) = S (S (List.length (_arrows o))) /\
  nth_error (draw_commands o) 0 = Some (BlendSet "ALPHA") /\
  nth_error (draw_commands o) (S (List.length (_arrows o))) = Some (BlendSet "NONE") /\
  forall i a, nth_error (_arrows o) i = Some a ->
    exists col, nth_error (draw_commands o) (S i) = Some (BatchDraw col (points a)) /\
      (_hover o = Some i -> col = (1, 1, 0, 1)) /\
      (_hover o <> Some i -> col = color a).
Proof.
  cbv zeta. split.
  { unfold draw_callback. rewrite (bind_done _ _ w (self w) w) by reflexivity.
    apply for_each_host. }
  unfold draw_commands. split.
  { cbn [List.length]. rewrite length_app, draw_arrows_length. cbn [List.length]. lia. }
  split; [reflexivity |].
  split.
  { cbn [nth_error]. rewrite nth_error_app2 by (rewrite draw_arrows_length; lia).
    rewrite draw_arrows_length, Nat.sub_diag. reflexivity. }
  intros i a Ha. cbn [nth_error].
  rewrite nth_error_app1
    by (rewrite draw_arrows_length; apply nth_error_Some; rewrite Ha; discriminate).
  rewrite (draw_arrows_nth _ _ 0 i a Ha). cbn [Nat.add].
  eexists. split; [reflexivity |].
  destruct (_hover (self w)) as [h |].
  - destruct (Nat.eqb_spec i h) as [-> | Hne]; split; intros H; try reflexivity.
    + contradiction H. reflexivity.
    + injection H as <-. contradiction Hne. reflexivity.
  - split; intros H; [discriminate | reflexivity].
Qed.

Lemma pass_through_not_timer_move event :
  pass_through event = true ->
  (Event.type event =? "TIMER")%string = false.
Proof.
  intros Hp. destruct (Event.type event =? "TIMER")%string eqn:E; [| reflexivity].
  apply String.eqb_eq in E. unfold pass_through in Hp. rewrite E in Hp. discriminate.
Qed.

(** X9. A pass-through event (middle button, wheel, pointer move with Alt)
    is handed on to the host: [modal] answers [PASS_THROUGH], asks only for
    the redraw and leaves arrows and hover as they are. *)
Theorem modal_pass_through (context : Context.t) (event : Event.t) (w : World) :
  pass_through event = true ->
  modal context event w = (Done PASS_THROUGH, logged w (redraw_calls context)).
Proof.
  intros Hp. pose proof (pass_through_not_timer_move event Hp) as Ht.
  rewrite modal_eq. cbv zeta. unfold timer_raises, after_timer. rewrite Ht, Hp. reflexivity.
Qed.

Lemma modal_pass_through_witness :
  modal ctx_top (Event.mk "MOUSEMOVE" "NOTHING" true 480 300) started_world
  = (Done PASS_THROUGH, logged started_world (redraw_calls ctx_top)).
Proof.
  apply (modal_pass_through ctx_top (Event.mk "MOUSEMOVE" "NOTHING" true 480 300) started_world).
  reflexivity.
Defined.

(** X10. Every event the handler has no branch for (a key of the keyboard,
    the release of the primary button, ...) is swallowed: [modal] answers
    [RUNNING_MODAL], asks only for the redraw and changes nothing. *)
Theorem modal_swallows (context : Context.t) (event : Event.t) (w : World) :
  in_strings (Event.type event)
    ["TIMER"; "MOUSEMOVE"; "RIGHTMOUSE"; "ESC"; "MIDDLEMOUSE"; "WHEELUPMOUSE";
     "WHEELDOWNMOUSE"; "WHEELINMOUSE"; "WHEELOUTMOUSE"]%string = false ->
  ((Event.type event =? "LEFTMOUSE") && (Event.value event =? "PRESS"))%string = false ->
  modal context event w = (Done RUNNING_MODAL, logged w (redraw_calls context)).
Proof.
  intros Hin Hclick. cbn [in_strings existsb] in Hin.
  repeat (apply orb_false_iff in Hin; destruct Hin as [? Hin]).
  rewrite modal_eq. cbv zeta.
  unfold timer_raises, move_raises, pass_through, after_move, after_timer.
  cbn [in_strings existsb].
  repeat match goal with H : (_ =? _)%string = false |- _ => rewrite H; clear H end.
  rewrite Hclick. reflexivity.
Qed.

Lemma modal_swallows_witness :
  modal ctx_top (ev_key "A" "PRESS") hovering_world
  = (Done RUNNING_MODAL, logged hovering_world (redraw_calls ctx_top)).
Proof.
  apply (modal_swallows ctx_top (ev_key "A" "PRESS") hovering_world); reflexivity.
Defined.

(** X11. The secondary button and escape cancel whatever the value of the
    event (press or release) and whatever is hovered: [modal] answers
    [CANCELLED], the mirror operator is not called, arrows and hover stay,
    and the host is asked to redraw, to release what the operator holds and
    to redraw again. *)
Theorem modal_cancels (context : Context.t) (event : Event.t) (w : World) :
  in_strings (Event.type event) ["RIGHTMOUSE"; "ESC"]%string = true ->
  modal context event w
  = (Done CANCELLED,
     logged w (redraw_calls context ++ release_calls (self w) ++ redraw_calls context)).
Proof.
  intros Hin.
  assert (Ht : Event.type event = "RIGHTMOUSE"%string \/ Event.type event = "ESC"%string).
  { cbn [in_strings existsb] in Hin.
    destruct (Event.type event =? "RIGHTMOUSE")%string eqn:E1;
      [left; apply String.eqb_eq, E1 |].
    destruct (Event.type event =? "ESC")%string eqn:E2;
      [right; apply String.eqb_eq, E2 | discriminate]. }
  rewrite modal_eq. cbv zeta.
  unfold timer_raises, move_raises, pass_through, after_move, after_timer, finished.
  destruct Ht as [-> | ->]; cbn [in_strings existsb String.eqb Ascii.eqb Bool.eqb orb andb];
    rewrite logged_logged; reflexivity.
Qed.

Lemma modal_cancels_witness :
  modal ctx_top (ev_key "ESC" "RELEASE") hovering_world
  = (Done CANCELLED,
     logged hovering_world
       (redraw_calls ctx_top ++ release_calls (self hovering_world) ++ redraw_calls ctx_top)).
Proof.
  apply (modal_cancels ctx_top (ev_key "ESC" "RELEASE") hovering_world). reflexivity.
Defined.

(** X12. Right after a pointer move that was handled, the hover is an index
    of the list: a primary click that follows at once never fails on the
    index, whatever its context. *)
Theorem click_after_move_indexes (context context' : Context.t) (event event' : Event.t)
  (w w' : World) :
  Event.type event = "MOUSEMOVE"%string ->
  modal context event w = (Done RUNNING_MODAL, w') ->
  Event.type event' = "LEFTMOUSE"%string ->
  (forall i, _hover (self w') = Some i -> (i < List.length (_arrows (self w')))%nat) /\
  fst (modal context' event' w') <> Raised IndexError.
Proof.
  intros Ht Hm Ht'.
  assert (Hidx : forall i, _hover (self w') = Some i ->
            exists a, nth_error (_arrows (self w')) i = Some a).
  { rewrite modal_eq in Hm. cbv zeta in Hm.
    unfold timer_raises, move_raises, pass_through, after_move, after_timer in Hm.
    rewrite Ht in Hm.
    cbn [in_strings existsb String.eqb Ascii.eqb Bool.eqb orb andb] in Hm.
    destruct (Event.alt event); [discriminate |].
    destruct (Context.view context) as [rv3d |]; [| discriminate].
    injection Hm as <-. cbn [self _hover _arrows with_hover logged].
    intros i Hi. destruct (hit_scan_some _ _ _ _ _ _ Hi) as (j & a & -> & Hn & _).
    exists a. exact Hn. }
  split.
  - intros i Hi. destruct (Hidx i Hi) as (a & Ha).
    apply nth_error_Some. rewrite Ha. discriminate.
  - rewrite modal_eq. cbv zeta.
    unfold timer_raises, move_raises, pass_through, after_move, after_timer.
    rewrite Ht'.
    cbn [in_strings existsb String.eqb Ascii.eqb Bool.eqb orb andb].
    destruct (Event.value event' =? "PRESS")%string; [| discriminate].
    cbn [logged self].
    destruct (_hover (self w')) as [i |] eqn:Hh; [| discriminate].
    destruct (Hidx i eq_refl) as (a & ->).
    destruct (Context.symmetrize_raises context' _ _); discriminate.
Qed.

Lemma click_after_move_indexes_witness :
  fst (modal ctx_top_raising (ev_click 480 300) hovering_world) <> Raised IndexError.
Proof.
  apply (click_after_move_indexes ctx_top ctx_top_raising (ev_move 480 300) (ev_click 480 300)
           started_world hovering_world eq_refl modal_move_top eq_refl).
Defined.

(** ** More on the entry *)

(** X13. [invoke] starts a session exactly when there is a mesh object in
    edit mode, the space has a 3D view to refresh the arrows with, and the
    area is a 3D view. *)
Theorem invoke_starts_iff (context : Context.t) (event : Event.t) (w : World) :
  fst (invoke context event w) = Done RUNNING_MODAL <->
  (exists obj rv3d a,
     Context.object context = Some obj /\ Object.type obj = "MESH"%string /\
     Context.mode context = "EDIT_MESH"%string /\
     Context.view context = Some rv3d /\
     Context.area context = Some a /\ Area.type a = "VIEW_3D"%string).
Proof.
  rewrite invoke_eq. cbv zeta. unfold entry_refused, refresh_raises.
  split.
  - destruct (Context.object context) as [obj |]; [| discriminate].
    destruct (Object.type obj =? "MESH")%string eqn:Ety; [| discriminate].
    destruct (Context.mode context =? "EDIT_MESH")%string eqn:Em; [| discriminate].
    cbn [negb orb].
    destruct (Context.view context) as [rv3d |]; [| discriminate].
    destruct (Context.area context) as [a |]; [| discriminate].
    destruct (Area.type a =? "VIEW_3D")%string eqn:Ea; [| discriminate].
    intros _. exists obj, rv3d, a.
    apply String.eqb_eq in Ety, Em, Ea. repeat split; assumption.
  - intros (obj & rv3d & a & -> & Hty & Hm & -> & -> & Ha).
    rewrite Hty, Hm, Ha. reflexivity.
Qed.

(** X14. A session that starts has acquired one timer, of 0.25 seconds, and
    then one draw handler, two different resources, both kept in the
    operator; it has asked the host for the shader before and for the modal
    handler after, and has left the hover as it was. *)
Theorem invoke_acquires (context : Context.t) (event : Event.t) (w w' : World) :
  invoke context event w = (Done RUNNING_MODAL, w') ->
  exists t h,
    t <> h /\
    calls w' = calls w ++ [ ShaderFromBuiltin "UNIFORM_COLOR"; EventTimerAdd 0.25 t;
                            DrawHandlerAdd h; ModalHandlerAdd ] /\
    _timer (self w') = Some t /\
    _handle (self w') = Some h /\
    _hover (self w') = _hover (self w) /\
    release_calls (self w') = [EventTimerRemove t; DrawHandlerRemove h].
Proof.
  intros H. apply invoke_running in H. destruct H as (_ & _ & ->).
  exists (List.length (calls w ++ [ShaderFromBuiltin "UNIFORM_COLOR"])),
         (List.length ((calls w ++ [ShaderFromBuiltin "UNIFORM_COLOR"])
                       ++ [EventTimerAdd 0.25
                             (List.length (calls w ++ [ShaderFromBuiltin "UNIFORM_COLOR"]))])).
  split; [rewrite !length_app; cbn [List.length]; lia |].
  split.
  { unfold handler_added, timer_started. cbn [calls refreshed logged].
    rewrite <- !app_assoc. reflexivity. }
  repeat split.
Qed.

Lemma invoke_acquires_witness :
  exists t h,
    t <> h /\
    calls started_world = calls new_world ++ [ ShaderFromBuiltin "UNIFORM_COLOR";
                            EventTimerAdd 0.25 t; DrawHandlerAdd h; ModalHandlerAdd ] /\
    _timer (self started_world) = Some t /\
    _handle (self started_world) = Some h /\
    _hover (self started_world) = _hover (self new_world) /\
    release_calls (self started_world) = [EventTimerRemove t; DrawHandlerRemove h].
Proof. exact (invoke_acquires ctx_top ev_start new_world started_world invoke_top). Defined.

(** X15. Without an object, with an object that is no mesh, or outside edit
    mode, [invoke] warns "Edit Mode mesh required" and answers [CANCELLED];
    it asks nothing else of the host and leaves the operator as it is. *)
Theorem invoke_refuses (context : Context.t) (event : Event.t) (w : World) :
  Context.object context = None \/
  (exists obj, Context.object context = Some obj /\
     (Object.type obj <> "MESH"%string \/ Context.mode context <> "EDIT_MESH"%string)) ->
  invoke context event w
  = (Done CANCELLED, mkWorld (self w) (calls w ++ [Report "WARNING" "Edit Mode mesh required"])).
Proof.
  intros H. apply invoke_refused. unfold entry_refused.
  destruct H as [-> | (obj & -> & [Hty | Hm])]; [reflexivity | |].
  - apply String.eqb_neq in Hty. rewrite Hty. reflexivity.
  - apply String.eqb_neq in Hm. rewrite Hm. apply orb_true_r.
Qed.

Lemma invoke_refuses_witness :
  invoke ctx_no_object ev_start world_with_arrows
  = (Done CANCELLED,
     mkWorld (self world_with_arrows)
       (calls world_with_arrows ++ [Report "WARNING" "Edit Mode mesh required"])).
Proof.
  apply (invoke_refuses ctx_no_object ev_start world_with_arrows). left. reflexivity.
Defined.

(** ** The hotkey and the registration *)

Section HotkeyFacts.

Import Hotkey.

(** X16. The formatted hotkey names the modifiers that are set, in the
    order Ctrl, Shift, Alt, each followed by " + ", and ends with the key. *)
Theorem format_hotkey_form (p : SmartSymPreferences) :
  _format_hotkey p
  = ((if hotkey_ctrl p then "Ctrl + " else "") ++
     (if hotkey_shift p then "Shift + " else "") ++
     (if hotkey_alt p then "Alt + " else "") ++ hotkey_type p)%string.
Proof.
  unfold _format_hotkey. destruct (hotkey_ctrl p), (hotkey_shift p), (hotkey_alt p); reflexivity.
Qed.

Lemma same_item_iff a b : same_item a b = true <-> KeyMapItem.id a = KeyMapItem.id b.
Proof. unfold same_item. apply Nat.eqb_eq. Qed.

Lemma same_item_sym a b : same_item a b = same_item b a.
Proof. unfold same_item. apply Nat.eqb_sym. Qed.

Lemma existsb_same_in k l : In k l -> existsb (same_item k) l = true.
Proof.
  intros H. apply existsb_exists. exists k. split; [exact H | apply same_item_iff; reflexivity].
Qed.

Lemma existsb_same_ids k l :
  existsb (same_item k) l = true <-> In (KeyMapItem.id k) (map KeyMapItem.id l).
Proof.
  rewrite existsb_exists, in_map_iff. split.
  - intros (x & Hx & E). exists x. apply same_item_iff in E. split; [symmetry; exact E | exact Hx].
  - intros (x & E & Hx). exists x. split; [exact Hx | apply same_item_iff; symmetry; exact E].
Qed.

Lemma filter_filter_items (f g : KeyMapItem.t -> bool) l :
  filter g (filter f l) = filter (fun x => f x && g x) l.
Proof.
  induction l as [| a l IH]; [reflexivity |]. simpl.
  destruct (f a); simpl; [destruct (g a) |]; rewrite ?IH; reflexivity.
Qed.

Lemma ids_of_filter (f : KeyMapItem.t -> bool) l i :
  In i (map KeyMapItem.id (filter f l)) -> In i (map KeyMapItem.id l).
Proof.
  rewrite !in_map_iff. intros (x & E & Hx). apply filter_In in Hx. exists x. tauto.
Qed.

Lemma NoDup_ids_filter (f : KeyMapItem.t -> bool) l :
  NoDup (map KeyMapItem.id l) -> NoDup (map KeyMapItem.id (filter f l)).
Proof.
  induction l as [| a l IH]; intros H; [constructor |].
  simpl in *. inversion H as [| ? ? Hn Hd]; subst.
  destruct (f a); [| exact (IH Hd)].
  simpl. constructor; [| exact (IH Hd)].
  intros Hin. apply Hn. exact (ids_of_filter _ _ _ Hin).
Qed.

(** The loop of [unregister_hotkey]: every entry is found and leaves the
    keymap. *)
Lemma kfor_each_remove l : forall s,
  NoDup (map KeyMapItem.id l) ->
  (forall k, In k l -> existsb (same_item k) (keymap_items s) = true) ->
  kfor_each l keymap_items_remove s
  = (Done tt, mkAddon (preferences s) (keyconfigs_addon s)
                (filter (fun x => negb (existsb (same_item x) l)) (keymap_items s))
                (next_id s) (addon_keymaps s) (log s)).
Proof.
  induction l as [| k l IH]; intros s Hnd Hin.
  - cbn [kfor_each existsb negb]. unfold kret. f_equal.
    rewrite forallb_filter_id; [destruct s; reflexivity |].
    apply forallb_forall. reflexivity.
  - cbn [kfor_each]. unfold kbind at 1. unfold keymap_items_remove at 1.
    rewrite (Hin k (or_introl eq_refl)).
    inversion Hnd as [| ? ? Hk Hnd']; subst.
    rewrite IH; [| exact Hnd' |].
    + cbn [preferences keyconfigs_addon keymap_items next_id addon_keymaps log].
      rewrite filter_filter_items. f_equal. f_equal.
      apply filter_ext. intros x. cbn [existsb]. rewrite (same_item_sym x k).
      destruct (same_item k x); reflexivity.
    + intros k' Hk'. cbn [keymap_items].
      apply existsb_exists.
      pose proof (Hin k' (or_intror Hk')) as H. apply existsb_exists in H.
      destruct H as (x & Hx & E). exists x. split; [| exact E].
      apply filter_In. split; [exact Hx |].
      apply negb_true_iff. apply not_true_iff_false. intros Ekx.
      apply same_item_iff in Ekx, E. apply Hk.
      rewrite Ekx, <- E. apply in_map. exact Hk'.
Qed.

Lemma unregister_hotkey_eq s :
  entries_ok s -> unregister_hotkey s = (Done tt, unregistered s).
Proof.
  intros (_ & Hnd & Hin). unfold unregister_hotkey, kbind, get.
  rewrite kfor_each_remove; [reflexivity | exact Hnd |].
  intros k Hk. apply existsb_same_in, Hin, Hk.
Qed.

Lemma register_hotkey_eq s :
  register_hotkey s = (Done tt, if keyconfigs_addon s then registered s else s).
Proof.
  unfold register_hotkey, kbind, get. destruct (keyconfigs_addon s) eqn:Hk; reflexivity.
Qed.

Lemma register_hotkey_on s :
  keyconfigs_addon s = true -> register_hotkey s = (Done tt, registered s).
Proof. intros H. rewrite register_hotkey_eq, H. reflexivity. Qed.

Lemma keymap_ok_unregistered s : entries_ok s -> entries_ok (unregistered s).
Proof.
  intros ((Hnd & Hlt) & _ & _). unfold entries_ok, keymap_ok, unregistered, foreign_items.
  cbn [keymap_items next_id addon_keymaps map]. repeat split.
  - apply NoDup_ids_filter, Hnd.
  - intros k Hk. apply filter_In in Hk. apply Hlt, Hk.
  - constructor.
  - contradiction.
Qed.

Lemma fresh_id_not_in s :
  keymap_ok s -> ~ In (next_id s) (map KeyMapItem.id (keymap_items s)).
Proof.
  intros (_ & Hlt) Hin. apply in_map_iff in Hin. destruct Hin as (x & E & Hx).
  apply Hlt in Hx. lia.
Qed.

Lemma entries_ok_registered s :
  entries_ok s -> entries_ok (registered s).
Proof.
  intros (Hk & Hnd & Hin). pose proof (fresh_id_not_in s Hk) as Hfresh.
  destruct Hk as (Hndk & Hlt).
  unfold entries_ok, keymap_ok, registered.
  cbn [keymap_items next_id addon_keymaps]. rewrite !map_app. cbn [map hotkey_item KeyMapItem.id].
  assert (Hrev : forall l, NoDup l -> ~ In (next_id s) l -> NoDup (l ++ [next_id s])).
  { intros l Hl Hn. apply NoDup_app; [exact Hl | repeat constructor; intros [] |].
    intros a Ha [<- | []]. exact (Hn Ha). }
  repeat split.
  - apply Hrev; assumption.
  - intros k Hkin. apply in_app_or in Hkin. destruct Hkin as [Hkin | [<- | []]].
    + apply Hlt in Hkin. lia.
    + cbn. lia.
  - apply Hrev; [exact Hnd |]. intros Ha. apply Hfresh.
    apply in_map_iff in Ha. destruct Ha as (x & E & Hx).
    apply in_map_iff. exists x. split; [exact E | apply Hin, Hx].
  - intros k Hkin. apply in_app_or in Hkin. apply in_or_app.
    destruct Hkin as [Hkin | Hkin]; [left; apply Hin, Hkin | right; exact Hkin].
Qed.

Lemma foreign_items_registered s :
  entries_ok s -> foreign_items (registered s) = foreign_items s.
Proof.
  intros (Hk & _ & _). pose proof (fresh_id_not_in s Hk) as Hfresh.
  unfold foreign_items, registered. cbn [keymap_items addon_keymaps].
  rewrite filter_app. cbn [filter].
  rewrite existsb_app. cbn [existsb].
  replace (same_item (hotkey_item s) (hotkey_item s)) with true
    by (symmetry; apply same_item_iff; reflexivity).
  rewrite orb_true_r. cbn [negb]. rewrite app_nil_r.
  apply filter_ext_in. intros x Hx. rewrite existsb_app. cbn [existsb].
  replace (same_item x (hotkey_item s)) with false; [rewrite !orb_false_r; reflexivity |].
  symmetry. apply not_true_iff_false. intros E. apply same_item_iff in E.
  apply Hfresh. cbn [hotkey_item KeyMapItem.id] in E. rewrite <- E. apply in_map, Hx.
Qed.

Lemma foreign_items_no_entries s :
  addon_keymaps s = [] -> foreign_items s = keymap_items s.
Proof.
  intros E. unfold foreign_items. rewrite E. cbn [existsb negb].
  apply forallb_filter_id. apply forallb_forall. reflexivity.
Qed.

Lemma same_id_same_item l : forall a b,
  NoDup (map KeyMapItem.id l) -> In a l -> In b l ->
  KeyMapItem.id a = KeyMapItem.id b -> a = b.
Proof.
  induction l as [| c l IH]; intros a b Hnd Ha Hb E; [contradiction |].
  simpl in Hnd. inversion Hnd as [| ? ? Hc Hnd']; subst.
  destruct Ha as [<- | Ha], Hb as [<- | Hb].
  - reflexivity.
  - exfalso. apply Hc. rewrite E. apply in_map, Hb.
  - exfalso. apply Hc. rewrite <- E. apply in_map, Ha.
  - exact (IH a b Hnd' Ha Hb E).
Qed.

(** X17. [unregister_hotkey] takes every entry of [addon_keymaps] out of
    the keymap, leaves every other item of the keymap in place, empties the
    list and does not touch the preferences. *)
Theorem unregister_hotkey_clears (s : Addon) :
  entries_ok s ->
  exists s',
    unregister_hotkey s = (Done tt, s') /\
    addon_keymaps s' = [] /\
    preferences s' = preferences s /\
    (forall k, In k (addon_keymaps s) -> ~ In k (keymap_items s')) /\
    (forall x, In x (keymap_items s) -> ~ In x (addon_keymaps s) -> In x (keymap_items s')) /\
    (forall x, In x (keymap_items s') -> In x (keymap_items s)).
Proof.
  intros Hok. exists (unregistered s).
  split; [apply unregister_hotkey_eq, Hok |].
  destruct Hok as ((Hndk & _) & Hnd & Hin).
  unfold unregistered, foreign_items. cbn [addon_keymaps preferences keymap_items].
  repeat split.
  - intros k Hk Hf. apply filter_In in Hf. destruct Hf as (_ & Hf).
    rewrite (existsb_same_in k _ Hk) in Hf. discriminate.
  - intros x Hx Hnot. apply filter_In. split; [exact Hx |].
    apply negb_true_iff, not_true_iff_false. intros E.
    apply existsb_exists in E. destruct E as (k & Hk & E). apply same_item_iff in E.
    apply Hnot. rewrite (same_id_same_item _ x k Hndk Hx (Hin k Hk) E). exact Hk.
  - intros x Hx. apply filter_In in Hx. apply Hx.
Qed.

Lemma entries_ok_registered_addon : entries_ok registered_addon.
Proof.
  unfold entries_ok, keymap_ok. cbn.
  repeat split.
  - repeat constructor; simpl; intuition discriminate.
  - intros k [<- | [<- | []]]; cbn; lia.
  - repeat constructor; simpl; intuition.
  - intros k [<- | []]. right; left; reflexivity.
Qed.

Lemma unregister_hotkey_clears_witness :
  exists s',
    unregister_hotkey registered_addon = (Done tt, s') /\
    addon_keymaps s' = [] /\ keymap_items s' = [other_item].
Proof.
  destruct (unregister_hotkey_clears registered_addon entries_ok_registered_addon)
    as (s' & Hu & Ha & _).
  exists s'. split; [exact Hu |]. split; [exact Ha |].
  rewrite (unregister_hotkey_eq _ entries_ok_registered_addon) in Hu.
  injection Hu as <-. reflexivity.
Defined.

(** X18. With a key configuration, every [register_hotkey] makes one new
    item for the hotkey of the preferences, at the end of the keymap and at
    the end of [addon_keymaps]; it does not look for an item it made
    before. *)
Theorem register_hotkey_adds (s : Addon) :
  keyconfigs_addon s = true ->
  entries_ok s ->
  exists k s',
    register_hotkey s = (Done tt, s') /\
    item_matches (preferences s) k /\
    ~ In k (keymap_items s) /\
    keymap_items s' = keymap_items s ++ [k] /\
    addon_keymaps s' = addon_keymaps s ++ [k] /\
    preferences s' = preferences s /\
    entries_ok s'.
Proof.
  intros Hkc Hok. exists (hotkey_item s), (registered s).
  split; [rewrite register_hotkey_eq, Hkc; reflexivity |].
  split; [repeat split |].
  split.
  - intros Hin. apply (fresh_id_not_in s (proj1 Hok)).
    change (next_id s) with (KeyMapItem.id (hotkey_item s)). apply in_map, Hin.
  - repeat split; try (apply entries_ok_registered, Hok).
Qed.

Lemma register_hotkey_adds_witness :
  exists k s',
    register_hotkey registered_addon = (Done tt, s') /\
    List.length (addon_keymaps s') = 2%nat /\ item_matches default_preferences k.
Proof.
  destruct (register_hotkey_adds registered_addon eq_refl entries_ok_registered_addon)
    as (k & s' & Hr & Hm & _ & _ & Ha & _).
  exists k, s'. split; [exact Hr |]. split; [rewrite Ha; reflexivity | exact Hm].
Defined.

Lemma kfor_each_call (f : string -> AddonCall) l : forall s,
  kfor_each l (fun cls => call (f cls)) s = (Done tt, with_log s (map f l)).
Proof.
  induction l as [| c l IH]; intros s.
  - unfold with_log. cbn [map kfor_each]. rewrite app_nil_r. destruct s; reflexivity.
  - cbn [kfor_each map]. unfold kbind at 1. unfold call at 1. rewrite IH.
    unfold with_log. cbn [preferences keyconfigs_addon keymap_items next_id addon_keymaps log].
    rewrite <- app_assoc. reflexivity.
Qed.

(** X19. Without an addon key configuration (a host run without a window)
    [register_hotkey] does nothing, and [register] only registers the
    classes. *)
Theorem register_without_keyconfig (s : Addon) :
  keyconfigs_addon s = false ->
  register_hotkey s = (Done tt, s) /\
  register s = (Done tt, with_log s (map RegisterClass classes)) /\
  addon_keymaps (snd (register s)) = addon_keymaps s /\
  keymap_items (snd (register s)) = keymap_items s.
Proof.
  intros Hkc.
  assert (Hr : register s = (Done tt, with_log s (map RegisterClass classes))).
  { unfold register, kbind. rewrite kfor_each_call, register_hotkey_eq.
    replace (keyconfigs_addon (with_log s (map RegisterClass classes))) with false
      by (symmetry; exact Hkc).
    reflexivity. }
  split; [rewrite register_hotkey_eq, Hkc; reflexivity |].
  rewrite Hr. repeat split.
Qed.

Lemma register_without_keyconfig_witness :
  register_hotkey background_addon = (Done tt, background_addon).
Proof. apply (register_without_keyconfig background_addon). reflexivity. Defined.

(** X20. [unregister] undoes [register]: started with nothing registered,
    the two in a row leave the keymap with the items it had and
    [addon_keymaps] empty, keep the preferences, and unregister the classes
    that were registered, in the reverse order. *)
Theorem register_unregister_round_trip (s : Addon) :
  keymap_ok s ->
  addon_keymaps s = [] ->
  exists s',
    kbind register (fun _ => unregister) s = (Done tt, s') /\
    keymap_items s' = keymap_items s /\
    addon_keymaps s' = [] /\
    preferences s' = preferences s /\
    log s' = log s ++ map RegisterClass classes ++ map UnregisterClass (rev classes).
Proof.
  intros Hk Ha.
  set (s1 := with_log s (map RegisterClass classes)).
  assert (Hok1 : entries_ok s1).
  { unfold entries_ok, s1, with_log. cbn [addon_keymaps keymap_items next_id].
    rewrite Ha. repeat split; try apply Hk; [constructor | contradiction]. }
  set (s2 := if keyconfigs_addon s1 then registered s1 else s1).
  assert (Hok2 : entries_ok s2).
  { unfold s2. destruct (keyconfigs_addon s1); [apply entries_ok_registered |]; exact Hok1. }
  assert (Hf2 : foreign_items s2 = keymap_items s).
  { unfold s2. destruct (keyconfigs_addon s1).
    - rewrite (foreign_items_registered _ Hok1). exact (foreign_items_no_entries s1 Ha).
    - exact (foreign_items_no_entries s1 Ha). }
  assert (Hp2 : preferences s2 = preferences s /\ log s2 = log s ++ map RegisterClass classes).
  { unfold s2. destruct (keyconfigs_addon s1); split; reflexivity. }
  exists (with_log (unregistered s2) (map UnregisterClass (rev classes))).
  split.
  - unfold kbind at 1. unfold register. unfold kbind at 1.
    rewrite kfor_each_call. fold s1. rewrite register_hotkey_eq. fold s2.
    unfold unregister, kbind. rewrite (unregister_hotkey_eq _ Hok2).
    apply kfor_each_call.
  - unfold with_log, unregistered.
    cbn [keymap_items addon_keymaps preferences log].
    destruct Hp2 as (Hp & Hl). rewrite Hf2, Hp, Hl, <- app_assoc. repeat split.
Qed.

Lemma register_unregister_round_trip_witness :
  exists s',
    kbind register (fun _ => unregister) fresh_addon = (Done tt, s') /\
    keymap_items s' = keymap_items fresh_addon /\
    addon_keymaps s' = [].
Proof.
  assert (Hk : keymap_ok fresh_addon).
  { split; [repeat constructor; simpl; intuition | intros k [<- | []]; cbn; lia]. }
  destruct (register_unregister_round_trip fresh_addon Hk eq_refl)
    as (s' & Hr & Hi & Ha & _).
  exists s'. repeat split; assumption.
Defined.

(** Taking the hotkey out, setting the preferences and putting it back
    leaves the addon with one item, for the new preferences. *)
Lemma in_sync_rebound s p :
  entries_ok s ->
  in_sync (rebound s p) /\
  foreign_items (rebound s p) = foreign_items s /\
  preferences (rebound s p) = p /\
  log (rebound s p) = log s.
Proof.
  intros Hok.
  pose proof (keymap_ok_unregistered s Hok) as Hu.
  assert (Hw : entries_ok (with_preferences (unregistered s) p)) by exact Hu.
  split.
  { split; [apply entries_ok_registered, Hw |].
    exists (hotkey_item (with_preferences (unregistered s) p)).
    split; [reflexivity | repeat split]. }
  split; [| split; reflexivity].
  unfold rebound. rewrite (foreign_items_registered _ Hw).
  exact (foreign_items_no_entries (with_preferences (unregistered s) p) eq_refl).
Qed.

(** The last branch of [BH_OT_ChangeHotkey.modal]. *)
Lemma change_hotkey_capture_eq event s :
  keyconfigs_addon s = true ->
  entries_ok s ->
  (KeyEvent.value event =? "PRESS")%string = true ->
  in_strings (KeyEvent.type event) ["ESC"; "RIGHTMOUSE"]%string = false ->
  in_strings (KeyEvent.type event) modifier_keys = false ->
  let p := mkPreferences (KeyEvent.type event) (KeyEvent.ctrl event) (KeyEvent.shift event)
             (KeyEvent.alt event) false in
  BH_OT_ChangeHotkey.modal event s
  = (Done FINISHED, with_log (rebound s p) [ReportInfo ("New hotkey: " ++ _format_hotkey p)]).
Proof.
  intros Hkc Hok Hv Hesc Hmod p.
  unfold BH_OT_ChangeHotkey.modal. rewrite Hv, Hesc. fold modifier_keys. rewrite Hmod.
  unfold kbind. rewrite (unregister_hotkey_eq _ Hok).
  unfold set_preferences. rewrite register_hotkey_on by exact Hkc. reflexivity.
Qed.

Lemma reset_hotkey_eq s :
  keyconfigs_addon s = true ->
  entries_ok s ->
  BH_OT_ResetHotkey.execute s
  = (Done FINISHED,
     with_log (rebound s (mkPreferences "X" false false true (waiting_input (preferences s))))
       [ReportInfo "Hotkey reset to Alt+X"]).
Proof.
  intros Hkc Hok. unfold BH_OT_ResetHotkey.execute, kbind.
  rewrite (unregister_hotkey_eq _ Hok).
  unfold get, set_preferences. rewrite register_hotkey_on by exact Hkc. reflexivity.
Qed.

Lemma in_sync_with_log s l : in_sync s -> in_sync (with_log s l).
Proof. intros H. exact H. Qed.

(** X21. While the addon waits for the new hotkey, the press of a key that
    is neither escape, the secondary button nor a modifier becomes the
    hotkey: the preferences take the key and the modifiers held with it, the
    old item is replaced by one item for the new combination, the items of
    others stay, and the new hotkey is reported as formatted. *)
Theorem change_hotkey_captures (event : KeyEvent.t) (s : Addon) :
  keyconfigs_addon s = true ->
  in_sync s ->
  KeyEvent.value event = "PRESS"%string ->
  in_strings (KeyEvent.type event) ["ESC"; "RIGHTMOUSE"]%string = false ->
  in_strings (KeyEvent.type event) modifier_keys = false ->
  exists s',
    BH_OT_ChangeHotkey.modal event s = (Done FINISHED, s') /\
    preferences s'
    = mkPreferences (KeyEvent.type event) (KeyEvent.ctrl event) (KeyEvent.shift event)
        (KeyEvent.alt event) false /\
    in_sync s' /\
    foreign_items s' = foreign_items s /\
    log s' = log s ++ [ReportInfo ("New hotkey: " ++ _format_hotkey (preferences s'))].
Proof.
  intros Hkc (Hok & _) Hv Hesc Hmod.
  set (p := mkPreferences (KeyEvent.type event) (KeyEvent.ctrl event) (KeyEvent.shift event)
              (KeyEvent.alt event) false).
  destruct (in_sync_rebound s p Hok) as (Hsync & Hf & Hp & Hl).
  exists (with_log (rebound s p) [ReportInfo ("New hotkey: " ++ _format_hotkey p)]).
  split.
  - apply change_hotkey_capture_eq; try assumption. rewrite Hv. reflexivity.
  - unfold with_log. cbn [preferences log]. rewrite Hp, Hl.
    split; [reflexivity |]. split; [exact Hsync |]. split; [exact Hf | reflexivity].
Qed.

Lemma in_sync_registered_addon : in_sync registered_addon.
Proof.
  split; [exact entries_ok_registered_addon |].
  eexists. split; [reflexivity | repeat split].
Qed.

(** Ctrl+Shift+D is pressed while the addon waits. *)
Lemma change_hotkey_captures_witness :
  exists s',
    BH_OT_ChangeHotkey.modal (KeyEvent.mk "D" "PRESS" true true false) registered_addon
      = (Done FINISHED, s') /\
    _format_hotkey (preferences s') = "Ctrl + Shift + D"%string.
Proof.
  destruct (change_hotkey_captures (KeyEvent.mk "D" "PRESS" true true false) registered_addon
              eq_refl in_sync_registered_addon eq_refl eq_refl eq_refl)
    as (s' & Hm & Hp & _).
  exists s'. split; [exact Hm |]. rewrite Hp. reflexivity.
Defined.

(** X22. While the addon waits, an event that is no press, and the press of
    a modifier key, change nothing and keep the addon waiting. *)
Theorem change_hotkey_ignores (event : KeyEvent.t) (s : Addon) :
  KeyEvent.value event <> "PRESS"%string \/
  (in_strings (KeyEvent.type event) ["ESC"; "RIGHTMOUSE"]%string = false /\
   in_strings (KeyEvent.type event) modifier_keys = true) ->
  BH_OT_ChangeHotkey.modal event s = (Done RUNNING_MODAL, s).
Proof.
  intros [Hv | (Hesc & Hmod)]; unfold BH_OT_ChangeHotkey.modal.
  - apply String.eqb_neq in Hv. rewrite Hv. reflexivity.
  - destruct (KeyEvent.value event =? "PRESS")%string; [| reflexivity].
    rewrite Hesc. fold modifier_keys. rewrite Hmod. reflexivity.
Qed.

Lemma change_hotkey_ignores_witness :
  BH_OT_ChangeHotkey.modal (KeyEvent.mk "LEFT_CTRL" "PRESS" true false false) registered_addon
  = (Done RUNNING_MODAL, registered_addon).
Proof.
  apply (change_hotkey_ignores (KeyEvent.mk "LEFT_CTRL" "PRESS" true false false)
           registered_addon).
  right. split; reflexivity.
Defined.

(** X23. The press of escape or of the secondary button gives the change
    up: the hotkey of the preferences, the keymap and [addon_keymaps] are
    as before, and the addon no longer waits. *)
Theorem change_hotkey_gives_up (event : KeyEvent.t) (s : Addon) :
  KeyEvent.value event = "PRESS"%string ->
  in_strings (KeyEvent.type event) ["ESC"; "RIGHTMOUSE"]%string = true ->
  exists s',
    BH_OT_ChangeHotkey.modal event s = (Done CANCELLED, s') /\
    waiting_input (preferences s') = false /\
    _format_hotkey (preferences s') = _format_hotkey (preferences s) /\
    hotkey_type (preferences s') = hotkey_type (preferences s) /\
    keymap_items s' = keymap_items s /\
    addon_keymaps s' = addon_keymaps s /\
    log s' = log s.
Proof.
  intros Hv Hesc. eexists. split.
  - unfold BH_OT_ChangeHotkey.modal. rewrite Hv. cbn [String.eqb Ascii.eqb Bool.eqb].
    rewrite Hesc. reflexivity.
  - repeat split.
Qed.

Lemma change_hotkey_gives_up_witness :
  exists s',
    BH_OT_ChangeHotkey.modal (KeyEvent.mk "ESC" "PRESS" false false false)
      (snd (BH_OT_ChangeHotkey.invoke (KeyEvent.mk "LEFTMOUSE" "PRESS" false false false)
              registered_addon))
    = (Done CANCELLED, s') /\
    waiting_input (preferences s') = false /\
    keymap_items s' = keymap_items registered_addon.
Proof.
  destruct (change_hotkey_gives_up (KeyEvent.mk "ESC" "PRESS" false false false)
              (snd (BH_OT_ChangeHotkey.invoke (KeyEvent.mk "LEFTMOUSE" "PRESS" false false false)
                      registered_addon)) eq_refl eq_refl)
    as (s' & Hm & Hw & _ & _ & Hk & _).
  exists s'. repeat split; assumption.
Defined.

Lemma in_sync_with_preferences s p :
  in_sync s ->
  hotkey_type p = hotkey_type (preferences s) ->
  hotkey_ctrl p = hotkey_ctrl (preferences s) ->
  hotkey_shift p = hotkey_shift (preferences s) ->
  hotkey_alt p = hotkey_alt (preferences s) ->
  in_sync (with_preferences s p).
Proof.
  intros (Hok & k & Hk & Hm) Ht Hc Hs Ha. split; [exact Hok |].
  exists k. split; [exact Hk |].
  unfold item_matches in *. cbn [with_preferences preferences].
  rewrite Ht, Hc, Hs, Ha. exact Hm.
Qed.

(** X24. With a key configuration, the hotkey operators keep the addon in
    step with its preferences: from a state where the addon has exactly one
    item and it is the hotkey of the preferences, [BH_OT_ChangeHotkey.invoke],
    [BH_OT_ChangeHotkey.modal] on any event and [BH_OT_ResetHotkey.execute]
    all return, without an error, to such a state, and never touch the items
    of others. *)
Theorem hotkey_operators_keep_sync (s : Addon) :
  keyconfigs_addon s = true ->
  in_sync s ->
  (forall event, exists st s',
     BH_OT_ChangeHotkey.invoke event s = (Done st, s') /\
     keyconfigs_addon s' = true /\ in_sync s' /\ foreign_items s' = foreign_items s) /\
  (forall event, exists st s',
     BH_OT_ChangeHotkey.modal event s = (Done st, s') /\
     keyconfigs_addon s' = true /\ in_sync s' /\ foreign_items s' = foreign_items s) /\
  (exists st s',
     BH_OT_ResetHotkey.execute s = (Done st, s') /\
     keyconfigs_addon s' = true /\ in_sync s' /\ foreign_items s' = foreign_items s).
Proof.
  intros Hkc Hsync. split; [| split].
  - intros event.
    exists RUNNING_MODAL,
      (with_log (with_preferences s
                   (mkPreferences (hotkey_type (preferences s)) (hotkey_ctrl (preferences s))
                      (hotkey_shift (preferences s)) (hotkey_alt (preferences s)) true))
         [ModalHandlerAddHotkey]).
    split; [reflexivity |].
    split; [exact Hkc |]. split; [| reflexivity].
    apply in_sync_with_log, (in_sync_with_preferences s _ Hsync); reflexivity.
  - intros event. unfold BH_OT_ChangeHotkey.modal.
    destruct (KeyEvent.value event =? "PRESS")%string eqn:Hv;
      [| exists RUNNING_MODAL, s;
         split; [reflexivity | split; [exact Hkc | split; [exact Hsync | reflexivity]]]].
    destruct (in_strings (KeyEvent.type event) ["ESC"; "RIGHTMOUSE"]%string) eqn:Hesc.
    { exists CANCELLED,
        (with_preferences s
           (mkPreferences (hotkey_type (preferences s)) (hotkey_ctrl (preferences s))
              (hotkey_shift (preferences s)) (hotkey_alt (preferences s)) false)).
      split; [reflexivity |].
      split; [exact Hkc |]. split; [| reflexivity].
      apply (in_sync_with_preferences s _ Hsync); reflexivity. }
    destruct (in_strings (KeyEvent.type event)
                ["LEFT_SHIFT"; "RIGHT_SHIFT"; "LEFT_CTRL"; "RIGHT_CTRL"; "LEFT_ALT";
                 "RIGHT_ALT"]%string) eqn:Hmod;
      [exists RUNNING_MODAL, s;
       split; [reflexivity | split; [exact Hkc | split; [exact Hsync | reflexivity]]] |].
    pose proof (change_hotkey_capture_eq event s Hkc (proj1 Hsync) Hv Hesc Hmod) as Hm.
    cbv zeta in Hm.
    destruct (in_sync_rebound s
                (mkPreferences (KeyEvent.type event) (KeyEvent.ctrl event)
                   (KeyEvent.shift event) (KeyEvent.alt event) false) (proj1 Hsync))
      as (Hs' & Hf' & _).
    eexists _, _. split.
    + unfold BH_OT_ChangeHotkey.modal in Hm. rewrite Hv, Hesc, Hmod in Hm. exact Hm.
    + split; [exact Hkc |]. split; [exact Hs' | exact Hf'].
  - pose proof (reset_hotkey_eq s Hkc (proj1 Hsync)) as Hm.
    destruct (in_sync_rebound s
                (mkPreferences "X" false false true (waiting_input (preferences s)))
                (proj1 Hsync)) as (Hs' & Hf' & _).
    eexists _, _. split; [exact Hm |]. split; [exact Hkc |]. split; [exact Hs' | exact Hf'].
Qed.

(** X25. [BH_OT_ResetHotkey.execute] puts the hotkey back to Alt+X whatever
    it was: the preferences format as "Alt + X", the addon has one item for
    that combination, the items of others stay, whether the addon waits for
    a key is not touched, and the reset is reported. *)
Theorem reset_hotkey_resets (s : Addon) :
  keyconfigs_addon s = true ->
  in_sync s ->
  exists s' k,
    BH_OT_ResetHotkey.execute s = (Done FINISHED, s') /\
    _format_hotkey (preferences s') = "Alt + X"%string /\
    waiting_input (preferences s') = waiting_input (preferences s) /\
    addon_keymaps s' = [k] /\
    KeyMapItem.type k = "X"%string /\ KeyMapItem.alt k = true /\
    KeyMapItem.ctrl k = false /\ KeyMapItem.shift k = false /\
    In k (keymap_items s') /\
    foreign_items s' = foreign_items s /\
    log s' = log s ++ [ReportInfo "Hotkey reset to Alt+X"].
Proof.
  intros Hkc (Hok & _).
  destruct (in_sync_rebound s
              (mkPreferences "X" false false true (waiting_input (preferences s))) Hok)
    as (((_ & _ & Hin) & _) & Hf & _ & _).
  eexists _, _. split; [apply (reset_hotkey_eq s Hkc Hok) |].
  split; [reflexivity |]. split; [reflexivity |]. split; [reflexivity |].
  repeat split; try reflexivity.
  - apply Hin. left. reflexivity.
  - exact Hf.
Qed.

Lemma reset_hotkey_resets_witness :
  exists s',
    BH_OT_ResetHotkey.execute registered_addon = (Done FINISHED, s') /\
    _format_hotkey (preferences s') = "Alt + X"%string.
Proof.
  destruct (reset_hotkey_resets registered_addon eq_refl in_sync_registered_addon)
    as (s' & k & Hm & Hfmt & _).
  exists s'. split; assumption.
Defined.

Lemma hotkey_operators_keep_sync_witness :
  exists st s',
    BH_OT_ResetHotkey.execute registered_addon = (Done st, s') /\ in_sync s'.
Proof.
  destruct (hotkey_operators_keep_sync registered_addon eq_refl in_sync_registered_addon)
    as (_ & _ & st & s' & Hm & _ & Hs & _).
  exists st, s'. split; assumption.
Defined.

End HotkeyFacts.
